(** * cobraargs: struct-tag driven flag descriptors

    A shallow embedding of [arg.go] (package [cobraargs]): the tag parser
    [ParseArgFromField] with its helpers, and the flag binders
    [AttachStringArg], [AttachBoolArg] and [AttachIntArg].

    Go strings are byte sequences: they are modelled as [string], whose
    elements ([ascii]) are the bytes, so that [String.length] is Go's [len]
    and a Go slice [s[0:1]] is the first byte.  Panics and returned errors
    are explicit values. *)

From Stdlib Require Import String Ascii List Bool Arith ZArith NArith Lia.
From Stdlib Require Import DecimalString Permutation.
Import ListNotations.

Local Open Scope list_scope.
Local Open Scope string_scope.

(** ** Package [unicode/utf8] *)

Module utf8.

(** Runes are Go's [int32]; every value that arises here is within
    range, so they are plain integers. *)
Definition rune := Z.

Local Open Scope Z_scope.

Definition RuneError : rune := 65533.
Definition RuneSelf : Z := 128.
Definition MaxRune : rune := 1114111.

Definition byteZ (b : ascii) : Z := Z.of_N (N_of_ascii b).
Definition Zbyte (z : Z) : ascii := ascii_of_N (Z.to_N (Z.land z 255)).

Definition between (lo x hi : Z) : bool := ((lo <=? x) && (x <=? hi))%Z.

(** A continuation byte, [10xxxxxx]. *)
Definition cont (b : ascii) : bool := between 128 (byteZ b) 191.

(** [DecodeRuneInString]: the first rune of [s] and its width in bytes;
    [(RuneError, 0)] on the empty string and [(RuneError, 1)] on a byte
    sequence that is not the shortest encoding of a scalar value. *)
Definition DecodeRuneInString (s : string) : rune * nat :=
  match s with
  | EmptyString => (RuneError, 0%nat)
  | String b0 s1 =>
    let s0 := byteZ b0 in
    if (s0 <? RuneSelf)%Z then (s0, 1%nat)
    else if between 194 s0 223 then
      match s1 with
      | String b1 _ =>
        if cont b1
        then (Z.lor (Z.shiftl (Z.land s0 31) 6) (Z.land (byteZ b1) 63), 2%nat)
        else (RuneError, 1%nat)
      | _ => (RuneError, 1%nat)
      end
    else if between 224 s0 239 then
      match s1 with
      | String b1 (String b2 _) =>
        let lo := if (s0 =? 224)%Z then 160%Z else 128%Z in
        let hi := if (s0 =? 237)%Z then 159%Z else 191%Z in
        if between lo (byteZ b1) hi && cont b2
        then (Z.lor (Z.shiftl (Z.land s0 15) 12)
               (Z.lor (Z.shiftl (Z.land (byteZ b1) 63) 6)
                      (Z.land (byteZ b2) 63)), 3%nat)
        else (RuneError, 1%nat)
      | _ => (RuneError, 1%nat)
      end
    else if between 240 s0 244 then
      match s1 with
      | String b1 (String b2 (String b3 _)) =>
        let lo := if (s0 =? 240)%Z then 144%Z else 128%Z in
        let hi := if (s0 =? 244)%Z then 143%Z else 191%Z in
        if between lo (byteZ b1) hi && cont b2 && cont b3
        then (Z.lor (Z.shiftl (Z.land s0 7) 18)
               (Z.lor (Z.shiftl (Z.land (byteZ b1) 63) 12)
                 (Z.lor (Z.shiftl (Z.land (byteZ b2) 63) 6)
                        (Z.land (byteZ b3) 63))), 4%nat)
        else (RuneError, 1%nat)
      | _ => (RuneError, 1%nat)
      end
    else (RuneError, 1%nat)
  end.

(** [AppendRune] on an empty buffer: the UTF-8 encoding of [r]; a
    surrogate or a value out of range is written as [RuneError]. *)
Definition EncodeRune (r : rune) : string :=
  let enc3 (r : Z) :=
    String (Zbyte (Z.lor 224 (Z.shiftr r 12)))
      (String (Zbyte (Z.lor 128 (Z.land (Z.shiftr r 6) 63)))
        (String (Zbyte (Z.lor 128 (Z.land r 63))) EmptyString)) in
  if between 0 r 127 then String (Zbyte r) EmptyString
  else if between 0 r 2047 then
    String (Zbyte (Z.lor 192 (Z.shiftr r 6)))
      (String (Zbyte (Z.lor 128 (Z.land r 63))) EmptyString)
  else if negb (between 0 r MaxRune) || between 55296 r 57343 then enc3 RuneError
  else if (r <=? 65535)%Z then enc3 r
  else
    String (Zbyte (Z.lor 240 (Z.shiftr r 18)))
      (String (Zbyte (Z.lor 128 (Z.land (Z.shiftr r 12) 63)))
        (String (Zbyte (Z.lor 128 (Z.land (Z.shiftr r 6) 63)))
          (String (Zbyte (Z.lor 128 (Z.land r 63))) EmptyString))).

End utf8.

(** ** Package [unicode] *)

Module unicode.

Local Open Scope Z_scope.

Definition MaxASCII : Z := 127.

Section CaseTable.

(** [To(LowerCase, r)], the lookup in the package's [CaseRanges] table,
    for a rune above [MaxASCII].  The table is data of the Go
    distribution and not of this repository: everything below holds for
    whatever the table says. *)
Variable caseLower : utf8.rune -> utf8.rune.

Definition ToLower (r : utf8.rune) : utf8.rune :=
  if r <=? MaxASCII then
    if utf8.between 65 r 90 then r + 32 else r
  else caseLower r.

End CaseTable.

End unicode.

(** ** Package [strings] *)

Module strings.

(** [Split(s, sep)] for a separator of one byte, the only use the
    package makes of it: the pieces of [s] between the occurrences of
    [sep], one more than there are occurrences. *)
Fixpoint Split (s : string) (sep : ascii) : list string :=
  match s with
  | EmptyString => [EmptyString]
  | String c s' =>
    if Ascii.eqb c sep then EmptyString :: Split s' sep
    else match Split s' sep with
         | piece :: pieces => String c piece :: pieces
         | [] => [String c EmptyString]
         end
  end.

Definition isUpperByte (c : ascii) : bool :=
  utf8.between 65 (utf8.byteZ c) 90.

(** The byte [c + ('a' - 'A')] for an upper-case ASCII letter, [c] itself
    otherwise. *)
Definition lowerByte (c : ascii) : ascii :=
  if isUpperByte c then utf8.Zbyte (utf8.byteZ c + 32) else c.

Fixpoint isASCII (s : string) : bool :=
  match s with
  | EmptyString => true
  | String c s' => (utf8.byteZ c <? utf8.RuneSelf)%Z && isASCII s'
  end.

Fixpoint lowerASCII (s : string) : string :=
  match s with
  | EmptyString => EmptyString
  | String c s' => String (lowerByte c) (lowerASCII s')
  end.

Section Map.

Variable mapping : utf8.rune -> utf8.rune.

(** What [Map] writes for one rune of its input: nothing when the
    mapping is negative. *)
Definition mapped (c : utf8.rune) : string :=
  let r := mapping c in
  if (0 <=? r)%Z then utf8.EncodeRune r else EmptyString.

(** The loop [for _, c := range s] of [Map]: [pending] counts the bytes
    of the current rune still to be stepped over. *)
Fixpoint mapRange (pending : nat) (s : string) : string :=
  match s with
  | EmptyString => EmptyString
  | String _ s' =>
    match pending with
    | S k => mapRange k s'
    | O =>
      let (c, width) := utf8.DecodeRuneInString s in
      mapped c ++ mapRange (Nat.pred width) s'
    end
  end.

(** [Map(mapping, s)]: the runes of [s], an invalid byte read as
    [RuneError], each replaced by the encoding of its image. *)
Definition Map (s : string) : string := mapRange 0 s.

End Map.

Section CaseTable.

Variable caseLower : utf8.rune -> utf8.rune.

(** [ToLower(s)]: byte by byte on a string of ASCII bytes, and through
    [Map(unicode.ToLower, s)] otherwise. *)
Definition ToLower (s : string) : string :=
  if isASCII s then lowerASCII s
  else Map (unicode.ToLower caseLower) s.

End CaseTable.

End strings.

(** ** Package [strconv] *)

Module strconv.

Inductive NumError := ErrSyntax | ErrRange.

(** [ParseBool]: the value and [nil], or [false] and a syntax error. *)
Definition ParseBool (str : string) : bool * option NumError :=
  if existsb (String.eqb str) ["1"; "t"; "T"; "TRUE"; "true"; "True"]
  then (true, None)
  else if existsb (String.eqb str) ["0"; "f"; "F"; "FALSE"; "false"; "False"]
  then (false, None)
  else (false, Some ErrSyntax).

Local Open Scope Z_scope.

(** What [ParseUint] makes of the digits of a string. *)
Inductive scanned :=
| Digits (un : Z)
| OutOfRange
| NotADigit.

Definition maxUint64 : Z := 2 ^ 64 - 1.

(** The loop of [ParseUint] in base 10 over [s], [n] being the value
    read so far: a byte that is not a digit ends it with a syntax
    error, and a value that passes [maxUint64] with a range error,
    whatever follows. *)
Fixpoint digits (n : Z) (s : string) : scanned :=
  match s with
  | EmptyString => Digits n
  | String ch s' =>
    let d := utf8.byteZ ch - 48 in
    if utf8.between 0 d 9 then
      if maxUint64 / 10 + 1 <=? n then OutOfRange
      else if maxUint64 <? n * 10 + d then OutOfRange
      else digits (n * 10 + d) s'
    else NotADigit
  end.

Definition maxInt : Z := 2 ^ 63 - 1.
Definition minInt : Z := - 2 ^ 63.

(** [Atoi] with a 64-bit [int]: an optional sign and at least one
    decimal digit.  A value out of range comes back clamped, with a
    range error. *)
Definition Atoi (s : string) : Z * option NumError :=
  match s with
  | EmptyString => (0, Some ErrSyntax)
  | String c s' =>
    let neg := Ascii.eqb c "-" in
    let body := if neg || Ascii.eqb c "+" then s' else s in
    match body with
    | EmptyString => (0, Some ErrSyntax)
    | _ =>
      match digits 0 body with
      | NotADigit => (0, Some ErrSyntax)
      | OutOfRange => (if neg then minInt else maxInt, Some ErrRange)
      | Digits un =>
        if neg then
          if un <=? 2 ^ 63 then (- un, None) else (minInt, Some ErrRange)
        else
          if un <=? maxInt then (un, None) else (maxInt, Some ErrRange)
      end
    end
  end.

End strconv.

(** ** Package [reflect] *)

Module reflect.

(** A struct tag, read as the list of its [key:"value"] pairs in the
    order written. *)
Definition StructTag := list (string * string).

(** [tag.Get(key)]: the value of the first pair under [key], the empty
    string when there is none. *)
Fixpoint Get (tag : StructTag) (key : string) : string :=
  match tag with
  | [] => EmptyString
  | (name, value) :: tag' => if String.eqb name key then value else Get tag' key
  end.

Record StructField := {
  Name : string;
  Tag : StructTag
}.

(** A struct type: its name and its fields, none of them embedded. *)
Record Type_ := {
  TypeName : string;
  Fields : list StructField
}.

(** [t.FieldByName(name)]; [None] is Go's [has == false]. *)
Definition FieldByName (t : Type_) (name : string) : option StructField :=
  find (fun f => String.eqb (Name f) name) (Fields t).

End reflect.

(** ** Packages [cobra] and [pflag]

    Of the command only its flag set matters here: the flags in the
    order they were registered. *)

Module cobra.

Inductive Value :=
| StringValue (s : string)
| BoolValue (b : bool)
| IntValue (n : Z).

Record Flag := {
  Name : string;
  Shorthand : string;
  Usage : string;
  DefValue : Value;
  Required : bool
}.

Definition Command := list Flag.

Inductive flagPanic :=
| FlagRedefined (name : string)
| ShorthandTooLong (shorthand : string)
| ShorthandRedefined (shorthand : string) (usedBy : string).

Definition Lookup (cmd : Command) (name : string) : option Flag :=
  find (fun f => String.eqb (Name f) name) cmd.

Definition lookupShorthand (cmd : Command) (shorthand : string) : option Flag :=
  find (fun f => String.eqb (Shorthand f) shorthand) cmd.

(** [FlagSet.VarP] by way of [AddFlag]: the flag is appended, unless its
    name is taken, its shorthand is longer than one byte, or its
    shorthand is taken, each of which panics. *)
Definition VarP (cmd : Command) (value : Value) (name shorthand usage : string)
  : Command + flagPanic :=
  let flag := {| Name := name; Shorthand := shorthand; Usage := usage;
                 DefValue := value; Required := false |} in
  match Lookup cmd name with
  | Some _ => inr (FlagRedefined name)
  | None =>
    if String.eqb shorthand EmptyString then inl (cmd ++ [flag])%list
    else if Nat.ltb 1 (String.length shorthand) then inr (ShorthandTooLong shorthand)
    else match lookupShorthand cmd shorthand with
         | Some used => inr (ShorthandRedefined shorthand (Name used))
         | None => inl (cmd ++ [flag])%list
         end
  end.

Definition setRequired (f : Flag) : Flag :=
  {| Name := Name f; Shorthand := Shorthand f; Usage := Usage f;
     DefValue := DefValue f; Required := true |}.

(** [cmd.MarkFlagRequired(name)]: an error ([None]) when no flag has
    that name. *)
Definition MarkFlagRequired (cmd : Command) (name : string) : option Command :=
  match Lookup cmd name with
  | None => None
  | Some _ =>
    Some (map (fun f => if String.eqb (Name f) name then setRequired f else f) cmd)
  end.

End cobra.

(** ** Package [cobraargs] *)

Record Argument := {
  Required : bool;
  LongName : string;
  ShortName : string;
  HasDefaultValue : bool;
  DefaultValue : string
}.

(** The zero value of [Argument], which a named result starts from. *)
Definition zeroArgument : Argument :=
  {| Required := false; LongName := EmptyString; ShortName := EmptyString;
     HasDefaultValue := false; DefaultValue := EmptyString |}.

Definition withRequired (a : Argument) (required : bool) : Argument :=
  {| Required := required; LongName := LongName a; ShortName := ShortName a;
     HasDefaultValue := HasDefaultValue a; DefaultValue := DefaultValue a |}.

Definition withLongName (a : Argument) (name : string) : Argument :=
  {| Required := Required a; LongName := name; ShortName := ShortName a;
     HasDefaultValue := HasDefaultValue a; DefaultValue := DefaultValue a |}.

Definition withShortName (a : Argument) (name : string) : Argument :=
  {| Required := Required a; LongName := LongName a; ShortName := name;
     HasDefaultValue := HasDefaultValue a; DefaultValue := DefaultValue a |}.

Definition withDefaultValue (a : Argument) (value : string) : Argument :=
  {| Required := Required a; LongName := LongName a; ShortName := ShortName a;
     HasDefaultValue := true; DefaultValue := value |}.

(** The four [fmt.Errorf] sites of the tag parser, each with the values
    its message is formatted from. *)
Inductive error :=
| FieldNameTooShort (fieldName : string)
| MalformedTagItem (index : nat) (fieldName : string)
| InvalidBooleanValue (fieldName tagName tagValue : string)
| ShortNameTooLong (fieldName tagName tagValue : string).

(** [%v] of an [int] that is not negative. *)
Definition itoa (n : nat) : string := NilEmpty.string_of_uint (Nat.to_uint n).

(** [err.Error()]. *)
Definition Error (err : error) : string :=
  match err with
  | FieldNameTooShort fieldName =>
    "arg item field [" ++ fieldName
      ++ "] has a name that is less than 2, this is illegal"
  | MalformedTagItem index fieldName =>
    "arg item at " ++ itoa index ++ " index for field '" ++ fieldName
      ++ "' is not a single '='"
  | InvalidBooleanValue fieldName tagName tagValue =>
    "arg field " ++ fieldName
      ++ " for 'required' field is not a boolean, it's name/value "
      ++ tagName ++ "/[" ++ tagValue ++ "]"
  | ShortNameTooLong fieldName tagName tagValue =>
    "arg field " ++ fieldName
      ++ " for 'shortname' field's value is greater than 1 character, it's name/value "
      ++ tagName ++ "/[" ++ tagValue ++ "]"
  end.

(** Go's [s[lo:hi]], for [lo <= hi <= len(s)]. *)
Definition slice (s : string) (lo hi : nat) : string :=
  String.substring lo (hi - lo) s.

(** A function that writes through [argument *Argument] and returns an
    [error] is a function from the [Argument] to the new [Argument] and
    the error, [None] for [nil]. *)

Definition processArgRequired (argument : Argument)
    (fieldName tagName tagValue : string) : Argument * option error :=
  match strconv.ParseBool tagValue with
  | (_, Some _) => (argument, Some (InvalidBooleanValue fieldName tagName tagValue))
  | (required, None) => (withRequired argument required, None)
  end.

Definition processArgLongName (argument : Argument) (tagValue : string) : Argument :=
  if Nat.ltb 0 (String.length tagValue) then withLongName argument tagValue
  else argument.

Definition processArgDefaultValue (argument : Argument) (tagValue : string) : Argument :=
  withDefaultValue argument tagValue.

(** The values an [interface{}] holds in this package. *)
Inductive iface :=
| Nil
| Bool (b : bool)
| Int (n : Z).

(** The panics of the flag binder: its four [panic(msg)] sites with the
    values their message is formatted from, the run-time panic of a
    failed type assertion, and the panics of the flag set. *)
Inductive panicValue :=
| NoSuchVariable (variableName : string)
| BadField (field : reflect.StructField)
| BadDefaultValue (typeName variableName defaultValue : string)
| CannotMarkRequired (longName : string)
| InterfaceConversion (dynamic : iface) (asserted : string)
| FlagSetPanic (p : cobra.flagPanic).

Inductive outcome (A : Type) :=
| Returns (a : A)
| Panics (p : panicValue).

Arguments Returns {A} a.
Arguments Panics {A} p.

Definition bind {A B : Type} (m : outcome A) (f : A -> outcome B) : outcome B :=
  match m with
  | Returns a => f a
  | Panics p => Panics p
  end.

Notation "x <- m ;; k" := (bind m (fun x => k))
  (at level 61, m at next level, right associativity).
Notation "' pat <- m ;; k" := (bind m (fun x => match x with pat => k end))
  (at level 61, pat pattern, m at next level, right associativity).

Definition genericStringToValueConverter : Type :=
  string -> iface * option strconv.NumError.

Definition booleanStringToValueConverter : genericStringToValueConverter :=
  fun val => let (b, err) := strconv.ParseBool val in (Bool b, err).

Definition intStringToValueConverter : genericStringToValueConverter :=
  fun val => let (n, err) := strconv.Atoi val in (Int n, err).

Definition attachCommonArg (arg : Argument) (parmType : reflect.Type_)
    (variableName : string) (converter : genericStringToValueConverter)
  : outcome iface :=
  if HasDefaultValue arg then
    match converter (DefaultValue arg) with
    | (_, Some _) =>
      Panics (BadDefaultValue (reflect.TypeName parmType) variableName
                (DefaultValue arg))
    | (defaultValue, None) => Returns defaultValue
    end
  else Returns Nil.

(** The type assertions [defaultValue.(bool)] and [defaultValue.(int)]. *)
Definition assertBool (v : iface) : outcome bool :=
  match v with
  | Bool b => Returns b
  | _ => Panics (InterfaceConversion v "bool")
  end.

Definition assertInt (v : iface) : outcome Z :=
  match v with
  | Int n => Returns n
  | _ => Panics (InterfaceConversion v "int")
  end.

Definition rationalizeHelp (arg : Argument) (rawHelp : string) : string :=
  (if Required arg then "MANDATORY: " else "optional: ") ++ rawHelp.

Definition processRequiredArg (cmd : cobra.Command) (arg : Argument)
  : outcome cobra.Command :=
  if Required arg then
    match cobra.MarkFlagRequired cmd (LongName arg) with
    | None => Panics (CannotMarkRequired (LongName arg))
    | Some cmd' => Returns cmd'
    end
  else Returns cmd.

(** [cmd.Flags().StringVarP] and its siblings: the flag is registered
    and the variable behind the pointer receives the default. *)
Definition registerFlag (cmd : cobra.Command) (value : cobra.Value)
    (name shorthand usage : string) : outcome cobra.Command :=
  match cobra.VarP cmd value name shorthand usage with
  | inl cmd' => Returns cmd'
  | inr p => Panics (FlagSetPanic p)
  end.

Section Package.

Variable caseLower : utf8.rune -> utf8.rune.

Definition processArgShortName (argument : Argument)
    (fieldName tagName tagValue : string) : Argument * option error :=
  if Nat.ltb 1 (String.length tagValue)
  then (argument, Some (ShortNameTooLong fieldName tagName tagValue))
  else (withShortName argument (strings.ToLower caseLower tagValue), None).

Definition processArg (argument : Argument)
    (fieldName tagName tagValue : string) : Argument * option error :=
  if String.eqb tagName "required" then
    processArgRequired argument fieldName tagName tagValue
  else if String.eqb tagName "longname" then
    (processArgLongName argument tagValue, None)
  else if String.eqb tagName "defaultvalue" then
    (processArgDefaultValue argument tagValue, None)
  else if String.eqb tagName "shortname" then
    processArgShortName argument fieldName tagName tagValue
  else (argument, None).

(** The loop [for index, argItem := range argItems] of
    [ParseArgFromField], from position [index] on. *)
Fixpoint rangeArgItems (fieldName : string) (index : nat)
    (argItems : list string) (argument : Argument) : Argument * option error :=
  match argItems with
  | [] => (argument, None)
  | argItem :: argItems' =>
    match strings.Split argItem "=" with
    | [name; tagValue] =>
      let tagName := strings.ToLower caseLower name in
      match processArg argument fieldName tagName tagValue with
      | (argument', Some err) => (argument', Some err)
      | (argument', None) => rangeArgItems fieldName (S index) argItems' argument'
      end
    | _ => (argument, Some (MalformedTagItem index fieldName))
    end
  end.

Definition ParseArgFromField (field : reflect.StructField) : Argument * option error :=
  let fieldName := reflect.Name field in
  if Nat.ltb (String.length fieldName) 2
  then (zeroArgument, Some (FieldNameTooShort fieldName))
  else
    let defaultName :=
      strings.ToLower caseLower (slice fieldName 0 1)
        ++ slice fieldName 1 (String.length fieldName) in
    let argument := withLongName zeroArgument defaultName in
    let rawArgStr := reflect.Get (reflect.Tag field) "arg" in
    let argItems := strings.Split rawArgStr "," in
    rangeArgItems fieldName 0 argItems argument.

Definition parseArg (parmType : reflect.Type_) (variableName : string)
  : outcome (Argument * string) :=
  match reflect.FieldByName parmType variableName with
  | None => Panics (NoSuchVariable variableName)
  | Some field =>
    match ParseArgFromField field with
    | (_, Some _) => Panics (BadField field)
    | (arg, None) => Returns (arg, reflect.Get (reflect.Tag field) "help")
    end
  end.

(** Each binder returns the command with the flag registered and the
    value it leaves in [*variableValue]. *)

Definition AttachStringArg (cmd : cobra.Command) (parmType : reflect.Type_)
    (variableName : string) (otherArgs : list string)
  : outcome (cobra.Command * string) :=
  '(arg, rawHelp) <- parseArg parmType variableName ;;
  let defaultValue := EmptyString in
  let defaultValue :=
    if HasDefaultValue arg then DefaultValue arg else defaultValue in
  let defaultValue :=
    match otherArgs with
    | first :: _ => first
    | [] => defaultValue
    end in
  cmd <- registerFlag cmd (cobra.StringValue defaultValue) (LongName arg)
           (ShortName arg) (rationalizeHelp arg rawHelp) ;;
  cmd <- processRequiredArg cmd arg ;;
  Returns (cmd, defaultValue).

Definition AttachBoolArg (cmd : cobra.Command) (parmType : reflect.Type_)
    (variableName : string) : outcome (cobra.Command * bool) :=
  '(arg, rawHelp) <- parseArg parmType variableName ;;
  defaultValue <- attachCommonArg arg parmType variableName
                    booleanStringToValueConverter ;;
  defaultValueBool <- assertBool defaultValue ;;
  cmd <- registerFlag cmd (cobra.BoolValue defaultValueBool) (LongName arg)
           (ShortName arg) (rationalizeHelp arg rawHelp) ;;
  cmd <- processRequiredArg cmd arg ;;
  Returns (cmd, defaultValueBool).

Definition AttachIntArg (cmd : cobra.Command) (parmType : reflect.Type_)
    (variableName : string) : outcome (cobra.Command * Z) :=
  '(arg, rawHelp) <- parseArg parmType variableName ;;
  defaultValue <- attachCommonArg arg parmType variableName
                    intStringToValueConverter ;;
  defaultValueInt <- assertInt defaultValue ;;
  cmd <- registerFlag cmd (cobra.IntValue defaultValueInt) (LongName arg)
           (ShortName arg) (rationalizeHelp arg rawHelp) ;;
  cmd <- processRequiredArg cmd arg ;;
  Returns (cmd, defaultValueInt).


(** ** Vocabulary of the properties *)

(** The number of occurrences of the byte [sep] in [s]. *)
Fixpoint count (sep : ascii) (s : string) : nat :=
  match s with
  | EmptyString => 0
  | String c s' => (if Ascii.eqb c sep then 1 else 0) + count sep s'
  end.

(** The name, lower-cased, and the value of a tag item that splits on
    [=] into exactly two parts. *)
Definition nameValue (argItem : string) : option (string * string) :=
  match strings.Split argItem "=" with
  | [name; tagValue] => Some (strings.ToLower caseLower name, tagValue)
  | _ => None
  end.

(** The name and value of every such item of a tag, in the order
    written. *)
Fixpoint tagPairs (argItems : list string) : list (string * string) :=
  match argItems with
  | [] => []
  | argItem :: argItems' =>
    match nameValue argItem with
    | Some kv => kv :: tagPairs argItems'
    | None => tagPairs argItems'
    end
  end.

(** The value of the last pair under [key]. *)
Fixpoint lastValue (key : string) (pairs : list (string * string)) : option string :=
  match pairs with
  | [] => None
  | (k, v) :: pairs' =>
    match lastValue key pairs' with
    | Some v' => Some v'
    | None => if String.eqb k key then Some v else None
    end
  end.

Definition nonEmptyValue (kv : string * string) : bool :=
  negb (String.eqb (snd kv) EmptyString).

(** An item that the parser steps over without an error. *)
Definition accepted (argItem : string) : Prop :=
  exists name tagValue,
    nameValue argItem = Some (name, tagValue)
    /\ (name = "required" -> snd (strconv.ParseBool tagValue) = None)
    /\ (name = "shortname" -> String.length tagValue <= 1).

(** The items of a field's [arg] tag. *)
Definition argItemsOf (field : reflect.StructField) : list string :=
  strings.Split (reflect.Get (reflect.Tag field) "arg") ",".

(** The long name derived from the name of a field. *)
Definition defaultNameOf (field : reflect.StructField) : string :=
  strings.ToLower caseLower (slice (reflect.Name field) 0 1)
    ++ slice (reflect.Name field) 1 (String.length (reflect.Name field)).


(** A field named [Éa], in UTF-8 the bytes C3 89 61, tagged
    [arg:"required=true"]. *)
Definition fieldEa : reflect.StructField :=
  {| reflect.Name := String "195" (String "137" "a");
     reflect.Tag := [("arg", "required=true")] |}.

(** The case table without entries: every rune above U+007F is its own
    lower case.  It serves the evaluations at the end, whose inputs are
    ASCII, for which [strings.ToLower] consults no table, or hold a byte
    that is read as U+FFFD, a rune without case. *)
Definition noCaseRanges : utf8.rune -> utf8.rune := fun r => r.

(** A field with an [arg] tag, a field without any tag, and a struct
    type to bind flags from. *)
Definition tagged (name tag : string) : reflect.StructField :=
  {| reflect.Name := name; reflect.Tag := [("arg", tag)] |}.

Definition untagged (name : string) : reflect.StructField :=
  {| reflect.Name := name; reflect.Tag := [] |}.

Definition config : reflect.Type_ :=
  {| reflect.TypeName := "Config";
     reflect.Fields :=
       [ {| reflect.Name := "UserName";
            reflect.Tag := [("arg", "required=true,shortname=u,defaultvalue=abc");
                            ("help", "the user")] |};
         tagged "Port" "defaultvalue=8080";
         tagged "Verbose" "defaultvalue=true";
         tagged "Quiet" "shortname=q" ] |}.

(** The literals that [strconv.ParseBool] reads as true and as false. *)
Definition trueLiterals : list string := ["1"; "t"; "T"; "TRUE"; "true"; "True"].
Definition falseLiterals : list string := ["0"; "f"; "F"; "FALSE"; "false"; "False"].

(** The error that an item raises when it is not [accepted], at position
    [index] of the tag of the field [fieldName]. *)
Definition errorOf (fieldName : string) (index : nat) (argItem : string) : error :=
  match nameValue argItem with
  | None => MalformedTagItem index fieldName
  | Some (name, tagValue) =>
    if String.eqb name "required"
    then InvalidBooleanValue fieldName name tagValue
    else ShortNameTooLong fieldName name tagValue
  end.

(** A name that is one of the four keys of the tag grammar. *)
Definition recognized (name : string) : Prop :=
  name = "required" \/ name = "longname" \/ name = "defaultvalue"
  \/ name = "shortname".

(** The flag that a binder registers for a parsed [Argument], with its
    default value and the raw help of the field. *)
Definition flagOf (arg : Argument) (value : cobra.Value) (rawHelp : string)
  : cobra.Flag :=
  {| cobra.Name := LongName arg; cobra.Shorthand := ShortName arg;
     cobra.Usage := rationalizeHelp arg rawHelp; cobra.DefValue := value;
     cobra.Required := Required arg |}.

(** The command has room for the flag of [arg]: the long name is not
    taken, and the short name is empty, or one byte that is not taken. *)
Definition free (cmd : cobra.Command) (arg : Argument) : Prop :=
  cobra.Lookup cmd (LongName arg) = None
  /\ (ShortName arg = EmptyString
      \/ (String.length (ShortName arg) <= 1
          /\ cobra.lookupShorthand cmd (ShortName arg) = None)).

(** A call of one of the three binders, and the command it leaves. *)
Inductive call :=
| StringCall (variableName : string) (otherArgs : list string)
| BoolCall (variableName : string)
| IntCall (variableName : string).

Definition attach (cmd : cobra.Command) (parmType : reflect.Type_) (c : call)
  : outcome cobra.Command :=
  match c with
  | StringCall variableName otherArgs =>
    '(cmd', _) <- AttachStringArg cmd parmType variableName otherArgs ;;
    Returns cmd'
  | BoolCall variableName =>
    '(cmd', _) <- AttachBoolArg cmd parmType variableName ;; Returns cmd'
  | IntCall variableName =>
    '(cmd', _) <- AttachIntArg cmd parmType variableName ;; Returns cmd'
  end.

(** The default that [AttachStringArg] settles on. *)
Definition stringDefault (arg : Argument) (otherArgs : list string) : string :=
  match otherArgs with
  | first :: _ => first
  | [] => if HasDefaultValue arg then DefaultValue arg else EmptyString
  end.

(** What a call of a binder makes of the struct type alone, whatever
    the command: the parsed [Argument], the default of the flag and the
    raw help. *)
Definition binds (parmType : reflect.Type_) (c : call) (arg : Argument)
    (value : cobra.Value) (rawHelp : string) : Prop :=
  match c with
  | StringCall variableName otherArgs =>
    parseArg parmType variableName = Returns (arg, rawHelp)
    /\ value = cobra.StringValue (stringDefault arg otherArgs)
  | BoolCall variableName =>
    parseArg parmType variableName = Returns (arg, rawHelp)
    /\ HasDefaultValue arg = true
    /\ exists b, strconv.ParseBool (DefaultValue arg) = (b, None)
                 /\ value = cobra.BoolValue b
  | IntCall variableName =>
    parseArg parmType variableName = Returns (arg, rawHelp)
    /\ HasDefaultValue arg = true
    /\ exists n, strconv.Atoi (DefaultValue arg) = (n, None)
                 /\ value = cobra.IntValue n
  end.

(** The [Argument]s of the fields [UserName] and [Port] of [config], and
    the flags that binding them registers. *)
Definition userNameArg : Argument :=
  {| Required := true; LongName := "userName"; ShortName := "u";
     HasDefaultValue := true; DefaultValue := "abc" |}.

Definition portArg : Argument :=
  {| Required := false; LongName := "port"; ShortName := EmptyString;
     HasDefaultValue := true; DefaultValue := "8080" |}.

Definition userNameFlag : cobra.Flag :=
  flagOf userNameArg (cobra.StringValue "abc") "the user".

Definition portFlag : cobra.Flag :=
  flagOf portArg (cobra.IntValue 8080) EmptyString.

(** A field named [É], in UTF-8 the bytes C3 89, tagged
    [arg:"required=true"]. *)
Definition fieldE : reflect.StructField :=
  {| reflect.Name := String "195" (String "137" EmptyString);
     reflect.Tag := [("arg", "required=true")] |}.

(** * Properties *)

(** ** Strings and slices *)

Lemma substring_zero s : String.substring 0 0 s = EmptyString.
Proof. destruct s; reflexivity. Qed.

Lemma substring_all s : String.substring 0 (String.length s) s = s.
Proof. induction s as [|c s IH]; simpl; [reflexivity | now rewrite IH]. Qed.

Lemma slice_first c s : slice (String c s) 0 1 = String c EmptyString.
Proof. unfold slice. simpl. now rewrite substring_zero. Qed.

Lemma slice_rest c s : slice (String c s) 1 (String.length (String c s)) = s.
Proof. unfold slice. simpl. rewrite Nat.sub_0_r. apply substring_all. Qed.

Lemma append_empty_r s : s ++ EmptyString = s.
Proof. induction s as [|c s IH]; simpl; [reflexivity | now rewrite IH]. Qed.

Lemma append_nonempty_r s t : t <> EmptyString -> s ++ t <> EmptyString.
Proof. destruct s; simpl; [trivial | discriminate]. Qed.

(** ** [strings.Split] *)

Lemma Split_nonempty s sep : strings.Split s sep <> [].
Proof.
  induction s as [|c s IH]; simpl; [discriminate|].
  destruct (Ascii.eqb c sep); [discriminate|].
  destruct (strings.Split s sep); [contradiction | discriminate].
Qed.

(** [Split] returns one piece more than there are separators. *)
Lemma Split_length s sep : List.length (strings.Split s sep) = S (count sep s).
Proof.
  induction s as [|c s IH]; simpl; [reflexivity|].
  destruct (Ascii.eqb c sep); simpl; [now rewrite IH|].
  pose proof (Split_nonempty s sep) as Hne.
  destruct (strings.Split s sep); [contradiction | exact IH].
Qed.

(** ** [strings.ToLower] on one byte *)

Lemma lowerByte_idempotent c :
  strings.lowerByte (strings.lowerByte c) = strings.lowerByte c.
Proof. destruct c as [[] [] [] [] [] [] [] []]; reflexivity. Qed.

Lemma lowerASCII_length s :
  String.length (strings.lowerASCII s) = String.length s.
Proof. induction s as [|c s IH]; simpl; [reflexivity | now rewrite IH]. Qed.

Lemma lowerASCII_idempotent s :
  strings.lowerASCII (strings.lowerASCII s) = strings.lowerASCII s.
Proof.
  induction s as [|c s IH]; simpl; [reflexivity|].
  now rewrite lowerByte_idempotent, IH.
Qed.

Lemma lowerByte_ascii c :
  (utf8.byteZ c <? utf8.RuneSelf)%Z = true ->
  (utf8.byteZ (strings.lowerByte c) <? utf8.RuneSelf)%Z = true.
Proof. destruct c as [[] [] [] [] [] [] [] []]; vm_compute; trivial. Qed.

Lemma lowerASCII_isASCII s :
  strings.isASCII s = true -> strings.isASCII (strings.lowerASCII s) = true.
Proof.
  induction s as [|c s IH]; simpl; [trivial|].
  rewrite !andb_true_iff. intros [Hc Hs]. split; [now apply lowerByte_ascii | auto].
Qed.

Lemma ToLower_ASCII s :
  strings.isASCII s = true ->
  strings.ToLower caseLower s = strings.lowerASCII s.
Proof. unfold strings.ToLower. now intros ->. Qed.

Lemma ToLower_ASCII_idempotent s :
  strings.isASCII s = true ->
  strings.ToLower caseLower (strings.ToLower caseLower s)
  = strings.ToLower caseLower s.
Proof.
  intros H. rewrite (ToLower_ASCII s H).
  rewrite ToLower_ASCII by now apply lowerASCII_isASCII.
  apply lowerASCII_idempotent.
Qed.

(** A byte that is not ASCII is no rune of its own: [Map] reads it as
    [RuneError] and writes the image of that. *)
Lemma ToLower_invalid_byte c :
  (utf8.byteZ c <? utf8.RuneSelf)%Z = false ->
  strings.ToLower caseLower (String c EmptyString)
  = strings.mapped (unicode.ToLower caseLower) utf8.RuneError.
Proof.
  intros H. unfold strings.ToLower. simpl strings.isASCII. rewrite H.
  simpl andb. cbv iota. unfold strings.Map, strings.mapRange.
  assert (Hd : utf8.DecodeRuneInString (String c EmptyString)
               = (utf8.RuneError, 1)).
  { unfold utf8.DecodeRuneInString. rewrite H.
    repeat match goal with |- context [if ?b then _ else _] => destruct b end;
      reflexivity. }
  rewrite Hd. apply append_empty_r.
Qed.


(** ** The loop over the tag items *)

Lemma rangeArgItems_malformed fieldName index argItem argItems argument :
  nameValue argItem = None ->
  rangeArgItems fieldName index (argItem :: argItems) argument
  = (argument, Some (MalformedTagItem index fieldName)).
Proof.
  unfold nameValue. cbn [rangeArgItems].
  destruct (strings.Split argItem "=") as [|p0 [|p1 [|p2 ps]]];
    try reflexivity; discriminate.
Qed.

Lemma rangeArgItems_step fieldName index argItem argItems argument name tagValue :
  nameValue argItem = Some (name, tagValue) ->
  rangeArgItems fieldName index (argItem :: argItems) argument
  = match processArg argument fieldName name tagValue with
    | (argument', Some err) => (argument', Some err)
    | (argument', None) => rangeArgItems fieldName (S index) argItems argument'
    end.
Proof.
  unfold nameValue. cbn [rangeArgItems].
  destruct (strings.Split argItem "=") as [|p0 [|p1 [|p2 ps]]];
    try discriminate.
  intros [= <- <-]. reflexivity.
Qed.

(** Whether an item splits into two parts is a matter of how many [=]
    it holds. *)
Lemma nameValue_none argItem :
  nameValue argItem = None <-> count "=" argItem <> 1.
Proof.
  unfold nameValue.
  pose proof (Split_length argItem "=") as Hlen.
  destruct (strings.Split argItem "=") as [|p0 [|p1 [|p2 ps]]];
    simpl in Hlen; split; intros H;
    solve [reflexivity | discriminate | lia | exfalso; lia].
Qed.

(** *** One item *)

Ltac by_tag_name name :=
  destruct (String.eqb_spec name "required") as [->|];
  [|destruct (String.eqb_spec name "longname") as [->|];
    [|destruct (String.eqb_spec name "defaultvalue") as [->|];
      [|destruct (String.eqb_spec name "shortname") as [->|]]]].

(** The two ways in which an item fails; the [Argument] is then left
    as it was. *)
Lemma processArg_error argument fieldName name tagValue argument' err :
  processArg argument fieldName name tagValue = (argument', Some err) ->
  argument' = argument
  /\ ((name = "required" /\ snd (strconv.ParseBool tagValue) <> None
       /\ err = InvalidBooleanValue fieldName name tagValue)
      \/ (name = "shortname" /\ 1 < String.length tagValue
          /\ err = ShortNameTooLong fieldName name tagValue)).
Proof.
  unfold processArg. by_tag_name name; try discriminate.
  - unfold processArgRequired.
    destruct (strconv.ParseBool tagValue) as [b [e|]] eqn:Hb; [|discriminate].
    intros [= <- <-]. split; [reflexivity|]. left. simpl. repeat split. discriminate.
  - unfold processArgShortName.
    destruct (Nat.ltb_spec 1 (String.length tagValue)); [|discriminate].
    intros [= <- <-]. split; [reflexivity|]. right. auto.
Qed.

Lemma processArg_accepts argument fieldName name tagValue :
  (name = "required" -> snd (strconv.ParseBool tagValue) = None) ->
  (name = "shortname" -> String.length tagValue <= 1) ->
  snd (processArg argument fieldName name tagValue) = None.
Proof.
  intros Hreq Hshort.
  destruct (processArg argument fieldName name tagValue) as [a' [err|]] eqn:H;
    [|reflexivity].
  apply processArg_error in H as [_ [(-> & Hb & _)|(-> & Hlen & _)]].
  - now specialize (Hreq eq_refl).
  - specialize (Hshort eq_refl). lia.
Qed.

(** What one item that is processed without error does to each field. *)
Lemma processArg_fields argument fieldName name tagValue argument' :
  processArg argument fieldName name tagValue = (argument', None) ->
  Required argument'
    = (if String.eqb name "required" then fst (strconv.ParseBool tagValue)
       else Required argument)
  /\ LongName argument'
    = (if String.eqb name "longname" && nonEmptyValue (name, tagValue)
       then tagValue else LongName argument)
  /\ HasDefaultValue argument'
    = (if String.eqb name "defaultvalue" then true else HasDefaultValue argument)
  /\ DefaultValue argument'
    = (if String.eqb name "defaultvalue" then tagValue else DefaultValue argument)
  /\ ShortName argument'
    = (if String.eqb name "shortname" then strings.ToLower caseLower tagValue
       else ShortName argument).
Proof.
  unfold processArg. by_tag_name name.
  - unfold processArgRequired.
    destruct (strconv.ParseBool tagValue) as [b [e|]]; [discriminate|].
    intros [= <-]. repeat split.
  - unfold processArgLongName, nonEmptyValue. intros [= <-]. cbn [snd].
    destruct tagValue; repeat split.
  - intros [= <-]. repeat split.
  - unfold processArgShortName.
    destruct (Nat.ltb 1 (String.length tagValue)); [discriminate|].
    intros [= <-]. repeat split.
  - intros [= <-].
    repeat match goal with
    | H : name <> _ |- _ => apply String.eqb_neq in H; rewrite H; clear H
    end.
    repeat split.
Qed.

(** *** The items in order *)

(** Items are taken from left to right: the items of [argItems1] are
    processed first, and those of [argItems2] only if none of them
    failed, on the [Argument] they left. *)
Lemma rangeArgItems_app fieldName argItems1 : forall index argItems2 argument,
  rangeArgItems fieldName index (argItems1 ++ argItems2)%list argument
  = match rangeArgItems fieldName index argItems1 argument with
    | (argument', None) =>
      rangeArgItems fieldName (index + List.length argItems1) argItems2 argument'
    | failed => failed
    end.
Proof.
  induction argItems1 as [|argItem argItems1 IH]; intros index argItems2 argument.
  - cbn [List.app List.length rangeArgItems]. now rewrite Nat.add_0_r.
  - rewrite <- List.app_comm_cons.
    destruct (nameValue argItem) as [[name tagValue]|] eqn:Hnv.
    + rewrite !(rangeArgItems_step _ _ _ _ _ _ _ Hnv).
      destruct (processArg argument fieldName name tagValue) as [a' [err|]];
        [reflexivity|].
      rewrite IH. cbn [List.length]. now rewrite Nat.add_succ_r.
    + now rewrite !(rangeArgItems_malformed _ _ _ _ _ Hnv).
Qed.

Lemma rangeArgItems_accepted fieldName argItems : forall index argument,
  Forall accepted argItems ->
  snd (rangeArgItems fieldName index argItems argument) = None.
Proof.
  induction argItems as [|argItem argItems IH]; intros index argument Hall.
  - reflexivity.
  - inversion Hall as [|? ? (name & tagValue & Hnv & Hreq & Hshort) Hrest]; subst.
    rewrite (rangeArgItems_step _ _ _ _ _ _ _ Hnv).
    pose proof (processArg_accepts argument fieldName name tagValue Hreq Hshort) as Hok.
    destruct (processArg argument fieldName name tagValue) as [a' [err|]];
      [discriminate|].
    now apply IH.
Qed.

Lemma rangeArgItems_success fieldName argItems : forall index argument argument',
  rangeArgItems fieldName index argItems argument = (argument', None) ->
  Forall accepted argItems.
Proof.
  induction argItems as [|argItem argItems IH]; intros index argument argument' H.
  - constructor.
  - destruct (nameValue argItem) as [[name tagValue]|] eqn:Hnv.
    + rewrite (rangeArgItems_step _ _ _ _ _ _ _ Hnv) in H.
      destruct (processArg argument fieldName name tagValue) as [a1 [err|]] eqn:Hp;
        [discriminate|].
      constructor; [|now apply IH in H].
      exists name, tagValue. split; [exact Hnv|]. split; intros ->.
      * change (processArgRequired argument fieldName "required" tagValue
                = (a1, None)) in Hp.
        unfold processArgRequired in Hp.
        destruct (strconv.ParseBool tagValue) as [b [e|]]; [discriminate|reflexivity].
      * change (processArgShortName argument fieldName "shortname" tagValue
                = (a1, None)) in Hp.
        unfold processArgShortName in Hp.
        destruct (Nat.ltb_spec 1 (String.length tagValue)); [discriminate|lia].
    + rewrite (rangeArgItems_malformed _ _ _ _ _ Hnv) in H. discriminate.
Qed.

(** Every error of the loop is one of the three that items raise. *)
Lemma rangeArgItems_error fieldName argItems : forall index argument argument' err,
  rangeArgItems fieldName index argItems argument = (argument', Some err) ->
  (exists i, err = MalformedTagItem i fieldName)
  \/ (exists name tagValue, err = InvalidBooleanValue fieldName name tagValue)
  \/ (exists name tagValue, err = ShortNameTooLong fieldName name tagValue).
Proof.
  induction argItems as [|argItem argItems IH]; intros index argument argument' err H.
  - discriminate.
  - destruct (nameValue argItem) as [[name tagValue]|] eqn:Hnv.
    + rewrite (rangeArgItems_step _ _ _ _ _ _ _ Hnv) in H.
      destruct (processArg argument fieldName name tagValue) as [a1 [e|]] eqn:Hp.
      * injection H as <- <-.
        apply processArg_error in Hp as [_ [(_ & _ & ->)|(_ & _ & ->)]]; eauto 6.
      * eapply IH; eassumption.
    + rewrite (rangeArgItems_malformed _ _ _ _ _ Hnv) in H.
      injection H as <- <-. eauto.
Qed.

(** After a loop without error each field is what the last item under
    its key made it; for [longname] only items with a value count. *)
Lemma rangeArgItems_fields fieldName argItems : forall index argument argument',
  rangeArgItems fieldName index argItems argument = (argument', None) ->
  Required argument'
    = match lastValue "required" (tagPairs argItems) with
      | Some tagValue => fst (strconv.ParseBool tagValue)
      | None => Required argument
      end
  /\ LongName argument'
    = match lastValue "longname" (filter nonEmptyValue (tagPairs argItems)) with
      | Some tagValue => tagValue
      | None => LongName argument
      end
  /\ HasDefaultValue argument'
    = match lastValue "defaultvalue" (tagPairs argItems) with
      | Some _ => true
      | None => HasDefaultValue argument
      end
  /\ DefaultValue argument'
    = match lastValue "defaultvalue" (tagPairs argItems) with
      | Some tagValue => tagValue
      | None => DefaultValue argument
      end
  /\ ShortName argument'
    = match lastValue "shortname" (tagPairs argItems) with
      | Some tagValue => strings.ToLower caseLower tagValue
      | None => ShortName argument
      end.
Proof.
  induction argItems as [|argItem argItems IH]; intros index argument argument' H.
  - injection H as <-. repeat split.
  - destruct (nameValue argItem) as [[name tagValue]|] eqn:Hnv.
    2: { rewrite (rangeArgItems_malformed _ _ _ _ _ Hnv) in H. discriminate. }
    rewrite (rangeArgItems_step _ _ _ _ _ _ _ Hnv) in H.
    destruct (processArg argument fieldName name tagValue) as [a1 [err|]] eqn:Hp;
      [discriminate|].
    apply IH in H as (Hr & Hl & Hh & Hd & Hs).
    apply processArg_fields in Hp as (Hr1 & Hl1 & Hh1 & Hd1 & Hs1).
    cbn [tagPairs]. rewrite Hnv. cbn [filter lastValue].
    rewrite Hr, Hl, Hh, Hd, Hs, Hr1, Hl1, Hh1, Hd1, Hs1.
    repeat split.
    + destruct (lastValue "required" (tagPairs argItems)); reflexivity
        || (destruct (String.eqb name "required"); reflexivity).
    + destruct (nonEmptyValue (name, tagValue)); cbn [lastValue];
        destruct (lastValue "longname" (filter nonEmptyValue (tagPairs argItems)));
        rewrite ?andb_true_r, ?andb_false_r; try reflexivity.
      destruct (String.eqb name "longname"); reflexivity.
    + destruct (lastValue "defaultvalue" (tagPairs argItems)); reflexivity
        || (destruct (String.eqb name "defaultvalue"); reflexivity).
    + destruct (lastValue "defaultvalue" (tagPairs argItems)); reflexivity
        || (destruct (String.eqb name "defaultvalue"); reflexivity).
    + destruct (lastValue "shortname" (tagPairs argItems)); reflexivity
        || (destruct (String.eqb name "shortname"); reflexivity).
Qed.

(** The pairs of a tag whose items all split in two are the items
    themselves. *)
Lemma lastValue_In key pairs tagValue :
  lastValue key pairs = Some tagValue -> In (key, tagValue) pairs.
Proof.
  induction pairs as [|[k v] pairs IH]; cbn [lastValue]; [discriminate|].
  destruct (lastValue key pairs) as [v'|].
  - intros [= <-]. right. now apply IH.
  - destruct (String.eqb_spec k key) as [->|]; [|discriminate].
    intros [= <-]. now left.
Qed.

Lemma In_lastValue key pairs tagValue :
  In (key, tagValue) pairs -> lastValue key pairs <> None.
Proof.
  induction pairs as [|[k v] pairs IH]; cbn [lastValue In]; [contradiction|].
  intros [[= -> ->]|Hin].
  - destruct (lastValue key pairs); [discriminate|].
    rewrite String.eqb_refl. discriminate.
  - specialize (IH Hin). destruct (lastValue key pairs); [discriminate|contradiction].
Qed.

Lemma In_tagPairs argItems name tagValue :
  In (name, tagValue) (tagPairs argItems)
  <-> exists argItem, In argItem argItems /\ nameValue argItem = Some (name, tagValue).
Proof.
  induction argItems as [|argItem argItems IH]; cbn [tagPairs In].
  - split; [contradiction | intros (? & [] & _)].
  - destruct (nameValue argItem) as [kv|] eqn:Hnv; cbn [In]; rewrite ?IH; split.
    + intros [->|(x & Hin & Hx)]; eauto.
    + intros (x & [<-|Hin] & Hx); [left; congruence | right; eauto].
    + intros (x & Hin & Hx); eauto.
    + intros (x & [<-|Hin] & Hx); [congruence | eauto].
Qed.

(** ** The tag parser *)

Lemma ParseArgFromField_short field :
  String.length (reflect.Name field) < 2 ->
  ParseArgFromField field
  = (zeroArgument, Some (FieldNameTooShort (reflect.Name field))).
Proof.
  intros Hlen. unfold ParseArgFromField.
  destruct (Nat.ltb_spec (String.length (reflect.Name field)) 2); [reflexivity | lia].
Qed.

Lemma ParseArgFromField_long field :
  2 <= String.length (reflect.Name field) ->
  ParseArgFromField field
  = rangeArgItems (reflect.Name field) 0 (argItemsOf field)
      (withLongName zeroArgument (defaultNameOf field)).
Proof.
  intros Hlen. unfold ParseArgFromField.
  destruct (Nat.ltb_spec (String.length (reflect.Name field)) 2); [lia | reflexivity].
Qed.

Lemma ParseArgFromField_success field argument :
  ParseArgFromField field = (argument, None) ->
  2 <= String.length (reflect.Name field).
Proof.
  intros H. destruct (Nat.lt_ge_cases (String.length (reflect.Name field)) 2) as [Hlt|];
    [|assumption].
  rewrite (ParseArgFromField_short _ Hlt) in H. discriminate.
Qed.

Lemma defaultNameOf_not_empty field :
  2 <= String.length (reflect.Name field) -> defaultNameOf field <> EmptyString.
Proof.
  unfold defaultNameOf. destruct (reflect.Name field) as [|c rest]; simpl String.length.
  - lia.
  - intros Hlen. rewrite slice_rest. apply append_nonempty_r.
    destruct rest; [simpl in Hlen; lia | discriminate].
Qed.

Lemma Get_absent tag key :
  (forall value, ~ In (key, value) tag) -> reflect.Get tag key = EmptyString.
Proof.
  induction tag as [|[name value] tag IH]; intros Hnone; cbn [reflect.Get].
  - reflexivity.
  - destruct (String.eqb_spec name key) as [->|].
    + exfalso. apply (Hnone value). now left.
    + apply IH. intros v Hin. apply (Hnone v). now right.
Qed.

(** X18: a field whose name has fewer than 2 bytes ([len(field.Name) < 2])
    is refused with the [FieldNameTooShort] error, which names the field;
    a field whose name has at least 2 bytes passes this check: the parser
    goes on to the items of the tag and never returns that error. *)
Theorem field_name_length_check field :
  (String.length (reflect.Name field) < 2 ->
   ParseArgFromField field
   = (zeroArgument, Some (FieldNameTooShort (reflect.Name field))))
  /\ (2 <= String.length (reflect.Name field) ->
      ParseArgFromField field
      = rangeArgItems (reflect.Name field) 0 (argItemsOf field)
          (withLongName zeroArgument (defaultNameOf field))
      /\ forall fieldName,
          snd (ParseArgFromField field) <> Some (FieldNameTooShort fieldName)).
Proof.
  split; [apply ParseArgFromField_short|].
  intros Hlen. split; [now apply ParseArgFromField_long|].
  intros fieldName. rewrite (ParseArgFromField_long _ Hlen).
  destruct (rangeArgItems _ _ _ _) as [a [err|]] eqn:H; [|discriminate].
  apply rangeArgItems_error in H as [[i ->]|[(n & v & ->)|(n & v & ->)]];
    discriminate.
Qed.

(** C4, as amended: a field whose [arg] tag is the empty string (or
    that has no [arg] tag at all) and whose name has at least 2 bytes is
    refused with the malformed-item error at index 0; one with a
    shorter name is refused with the [FieldNameTooShort] error instead;
    so whatever its name, such a field is never parsed with success. *)
Theorem C4_empty_arg_tag field :
  (reflect.Get (reflect.Tag field) "arg" = EmptyString
   \/ forall value, ~ In ("arg", value) (reflect.Tag field)) ->
  (2 <= String.length (reflect.Name field) ->
   snd (ParseArgFromField field)
   = Some (MalformedTagItem 0 (reflect.Name field)))
  /\ (String.length (reflect.Name field) < 2 ->
      snd (ParseArgFromField field)
      = Some (FieldNameTooShort (reflect.Name field)))
  /\ snd (ParseArgFromField field) <> None.
Proof.
  intros Hempty.
  assert (Hget : reflect.Get (reflect.Tag field) "arg" = EmptyString).
  { destruct Hempty as [H|H]; [exact H | now apply Get_absent]. }
  assert (Hlong : 2 <= String.length (reflect.Name field) ->
                  snd (ParseArgFromField field)
                  = Some (MalformedTagItem 0 (reflect.Name field))).
  { intros Hlen. rewrite (ParseArgFromField_long _ Hlen).
    unfold argItemsOf. rewrite Hget. reflexivity. }
  split; [exact Hlong|]. split.
  - intros Hlt. now rewrite (ParseArgFromField_short _ Hlt).
  - destruct (Nat.lt_ge_cases (String.length (reflect.Name field)) 2) as [Hlt|Hge].
    + rewrite (ParseArgFromField_short _ Hlt). discriminate.
    + rewrite (Hlong Hge). discriminate.
Qed.

(** C2, as amended: when the name of the field has at least 2 bytes, the
    item at position [i] is the first that does not hold exactly one [=],
    and every item before it is processed without error, the parser fails
    with the malformed-item error that names [i] and the field; what it
    returns is fixed by the items before position [i], so that no later
    item is processed. *)
Theorem C2_malformed_tag_item field before argItem after :
  2 <= String.length (reflect.Name field) ->
  argItemsOf field = (before ++ argItem :: after)%list ->
  Forall accepted before ->
  count "=" argItem <> 1 ->
  ParseArgFromField field
  = (fst (rangeArgItems (reflect.Name field) 0 before
            (withLongName zeroArgument (defaultNameOf field))),
     Some (MalformedTagItem (List.length before) (reflect.Name field))).
Proof.
  intros Hlen Hitems Hbefore Hbad.
  rewrite (ParseArgFromField_long _ Hlen), Hitems, rangeArgItems_app.
  pose proof (rangeArgItems_accepted (reflect.Name field) before 0
                (withLongName zeroArgument (defaultNameOf field)) Hbefore) as Hok.
  destruct (rangeArgItems (reflect.Name field) 0 before _) as [a [err|]];
    [discriminate|].
  apply nameValue_none in Hbad.
  now rewrite (rangeArgItems_malformed _ _ _ _ _ Hbad).
Qed.

(** C10: the [LongName] of a successfully parsed [Argument] is never
    empty.  It is the value of the last [longname] item that has one, and
    the name derived from the field when there is none; a [longname] item
    with an empty value changes nothing. *)
Theorem C10_long_name_not_empty field argument :
  ParseArgFromField field = (argument, None) ->
  LongName argument <> EmptyString
  /\ LongName argument
     = match lastValue "longname"
               (filter nonEmptyValue (tagPairs (argItemsOf field))) with
       | Some tagValue => tagValue
       | None => defaultNameOf field
       end
  /\ forall argument0, processArgLongName argument0 EmptyString = argument0.
Proof.
  intros H. pose proof (ParseArgFromField_success _ _ H) as Hlen.
  rewrite (ParseArgFromField_long _ Hlen) in H.
  apply rangeArgItems_fields in H as (_ & Hl & _).
  cbn [LongName withLongName] in Hl.
  split; [|split; [exact Hl | reflexivity]].
  rewrite Hl.
  destruct (lastValue "longname" _) as [tagValue|] eqn:Hlast.
  - apply lastValue_In, filter_In in Hlast as [_ Hne].
    unfold nonEmptyValue in Hne. cbn [snd] in Hne.
    intros ->. discriminate.
  - now apply defaultNameOf_not_empty.
Qed.

Lemma nameValue_some argItem key tagValue :
  nameValue argItem = Some (key, tagValue)
  <-> exists name, strings.Split argItem "=" = [name; tagValue]
                   /\ strings.ToLower caseLower name = key.
Proof.
  unfold nameValue.
  destruct (strings.Split argItem "=") as [|p0 [|p1 [|p2 ps]]]; split;
    try discriminate; try (intros (name & [=] & _); fail).
  - intros [= <- <-]. eauto.
  - intros (name & [= <- <-] & <-). reflexivity.
Qed.

(** The items of a tag that was parsed with success, seen from one of
    its pairs. *)
Lemma parsed_pair field argument key tagValue :
  ParseArgFromField field = (argument, None) ->
  In (key, tagValue) (tagPairs (argItemsOf field)) ->
  exists argItem,
    In argItem (argItemsOf field)
    /\ nameValue argItem = Some (key, tagValue)
    /\ (key = "required" -> snd (strconv.ParseBool tagValue) = None)
    /\ (key = "shortname" -> String.length tagValue <= 1).
Proof.
  intros H Hin. pose proof (ParseArgFromField_success _ _ H) as Hlen.
  rewrite (ParseArgFromField_long _ Hlen) in H.
  apply rangeArgItems_success in H. rewrite Forall_forall in H.
  apply In_tagPairs in Hin as (argItem & Hitem & Hnv).
  exists argItem. split; [exact Hitem|]. split; [exact Hnv|].
  destruct (H _ Hitem) as (name & v & Hnv' & Hreq & Hshort).
  rewrite Hnv in Hnv'. injection Hnv' as <- <-. auto.
Qed.

Lemma parsed_fields field argument :
  ParseArgFromField field = (argument, None) ->
  Required argument
    = match lastValue "required" (tagPairs (argItemsOf field)) with
      | Some tagValue => fst (strconv.ParseBool tagValue)
      | None => false
      end
  /\ LongName argument
    = match lastValue "longname"
              (filter nonEmptyValue (tagPairs (argItemsOf field))) with
      | Some tagValue => tagValue
      | None => defaultNameOf field
      end
  /\ HasDefaultValue argument
    = match lastValue "defaultvalue" (tagPairs (argItemsOf field)) with
      | Some _ => true
      | None => false
      end
  /\ DefaultValue argument
    = match lastValue "defaultvalue" (tagPairs (argItemsOf field)) with
      | Some tagValue => tagValue
      | None => EmptyString
      end
  /\ ShortName argument
    = match lastValue "shortname" (tagPairs (argItemsOf field)) with
      | Some tagValue => strings.ToLower caseLower tagValue
      | None => EmptyString
      end.
Proof.
  intros H. pose proof (ParseArgFromField_success _ _ H) as Hlen.
  rewrite (ParseArgFromField_long _ Hlen) in H.
  exact (rangeArgItems_fields _ _ _ _ _ H).
Qed.

(** The derived long name of a field whose name starts with an ASCII
    byte. *)
Lemma defaultNameOf_ASCII field c rest :
  reflect.Name field = String c rest ->
  (utf8.byteZ c <? utf8.RuneSelf)%Z = true ->
  defaultNameOf field = String (strings.lowerByte c) rest.
Proof.
  intros Hname Hc. unfold defaultNameOf. rewrite Hname, slice_first, slice_rest.
  rewrite ToLower_ASCII by (simpl; now rewrite Hc).
  reflexivity.
Qed.

(** X1: for a field whose name starts with an ASCII byte, the [LongName] of
    a successful parse is the name with that byte lower-cased and the
    rest unchanged, unless an item [longname=<v>] with a value [v] that
    is not empty overrides it, and then it is the [v] of the last such
    item. *)
Theorem long_name_of_ASCII_initial field c rest argument :
  reflect.Name field = String c rest ->
  (utf8.byteZ c <? utf8.RuneSelf)%Z = true ->
  ParseArgFromField field = (argument, None) ->
  LongName argument
  = match lastValue "longname"
            (filter nonEmptyValue (tagPairs (argItemsOf field))) with
    | Some tagValue => tagValue
    | None => String (strings.lowerByte c) rest
    end.
Proof.
  intros Hname Hc H. apply parsed_fields in H as (_ & Hl & _).
  now rewrite Hl, (defaultNameOf_ASCII _ _ _ Hname Hc).
Qed.

(** C7: after a successful parse [HasDefaultValue] is true exactly when
    some item of the tag splits into a name and a value with the name,
    lower-cased, being [defaultvalue], whatever the value;
    [DefaultValue] is then the value of the last such item.  A field
    tagged [defaultvalue=] is parsed with [HasDefaultValue] true and an
    empty [DefaultValue]. *)
Theorem C7_has_default_value field :
  (forall argument,
     ParseArgFromField field = (argument, None) ->
     (HasDefaultValue argument = true
      <-> exists argItem name tagValue,
            In argItem (argItemsOf field)
            /\ strings.Split argItem "=" = [name; tagValue]
            /\ strings.ToLower caseLower name = "defaultvalue")
     /\ DefaultValue argument
        = match lastValue "defaultvalue" (tagPairs (argItemsOf field)) with
          | Some tagValue => tagValue
          | None => EmptyString
          end)
  /\ (2 <= String.length (reflect.Name field) ->
      reflect.Get (reflect.Tag field) "arg" = "defaultvalue=" ->
      ParseArgFromField field
      = ({| Required := false; LongName := defaultNameOf field;
            ShortName := EmptyString; HasDefaultValue := true;
            DefaultValue := EmptyString |}, None)).
Proof.
  split.
  - intros argument H. pose proof (parsed_fields _ _ H) as (_ & _ & Hh & Hd & _).
    split; [|exact Hd]. rewrite Hh. split.
    + destruct (lastValue "defaultvalue" _) as [v|] eqn:Hlast; [|discriminate].
      intros _. apply lastValue_In in Hlast.
      destruct (parsed_pair _ _ _ _ H Hlast) as (argItem & Hin & Hnv & _).
      apply nameValue_some in Hnv as (name & Hsplit & Hname).
      exists argItem, name, v. auto.
    + intros (argItem & name & v & Hin & Hsplit & Hname).
      assert (Hpair : In ("defaultvalue", v) (tagPairs (argItemsOf field))).
      { apply In_tagPairs. exists argItem. split; [exact Hin|].
        apply nameValue_some. eauto. }
      apply In_lastValue in Hpair.
      destruct (lastValue "defaultvalue" _); [reflexivity | contradiction].
  - intros Hlen Htag. rewrite (ParseArgFromField_long _ Hlen).
    unfold argItemsOf. rewrite Htag. reflexivity.
Qed.

(** C8, as amended: the items of a tag are processed from left to right
    in the order written.  After a successful parse [Required],
    [HasDefaultValue], [DefaultValue] and [ShortName] are what the last
    item under their key says, and [LongName] is the value of the last
    [longname] item whose value is not empty (an item [longname=] leaves
    it as it is).  The tag [longname=foo,longname=bar] gives the
    [LongName] [bar]. *)
Theorem C8_items_in_order field :
  (forall index argItems1 argItems2 argument,
     rangeArgItems (reflect.Name field) index (argItems1 ++ argItems2)%list argument
     = match rangeArgItems (reflect.Name field) index argItems1 argument with
       | (argument', None) =>
         rangeArgItems (reflect.Name field) (index + List.length argItems1)
           argItems2 argument'
       | failed => failed
       end)
  /\ (forall argument,
       ParseArgFromField field = (argument, None) ->
       Required argument
         = match lastValue "required" (tagPairs (argItemsOf field)) with
           | Some tagValue => fst (strconv.ParseBool tagValue)
           | None => false
           end
       /\ LongName argument
         = match lastValue "longname"
                   (filter nonEmptyValue (tagPairs (argItemsOf field))) with
           | Some tagValue => tagValue
           | None => defaultNameOf field
           end
       /\ HasDefaultValue argument
         = match lastValue "defaultvalue" (tagPairs (argItemsOf field)) with
           | Some _ => true
           | None => false
           end
       /\ DefaultValue argument
         = match lastValue "defaultvalue" (tagPairs (argItemsOf field)) with
           | Some tagValue => tagValue
           | None => EmptyString
           end
       /\ ShortName argument
         = match lastValue "shortname" (tagPairs (argItemsOf field)) with
           | Some tagValue => strings.ToLower caseLower tagValue
           | None => EmptyString
           end)
  /\ (2 <= String.length (reflect.Name field) ->
      reflect.Get (reflect.Tag field) "arg" = "longname=foo,longname=bar" ->
      ParseArgFromField field
      = (withLongName zeroArgument "bar", None)).
Proof.
  split; [|split].
  - intros index argItems1 argItems2 argument. apply rangeArgItems_app.
  - apply parsed_fields.
  - intros Hlen Htag. rewrite (ParseArgFromField_long _ Hlen).
    unfold argItemsOf. rewrite Htag. reflexivity.
Qed.

(** X19: the short name, in bytes.  Take an item [shortname=<v>] that
    the parser reaches, the name of the field having at least 2 bytes
    and every item before it being processed without error.  If [v] has
    more than one byte the parse fails with the [ShortNameTooLong]
    error; otherwise [ShortName] is set to [strings.ToLower(v)] and the
    parse goes on.  After a successful parse [ShortName] is empty when
    the tag has no such item and [strings.ToLower(v)] for the [v], of at
    most one byte, of the last one; when that [v] is ASCII, [ShortName]
    has at most one byte and is its own lower-casing. *)
Theorem short_name_in_bytes field :
  (forall before argItem after tagValue,
     2 <= String.length (reflect.Name field) ->
     argItemsOf field = (before ++ argItem :: after)%list ->
     Forall accepted before ->
     nameValue argItem = Some ("shortname", tagValue) ->
     let argument :=
       fst (rangeArgItems (reflect.Name field) 0 before
              (withLongName zeroArgument (defaultNameOf field))) in
     (1 < String.length tagValue ->
      ParseArgFromField field
      = (argument,
         Some (ShortNameTooLong (reflect.Name field) "shortname" tagValue)))
     /\ (String.length tagValue <= 1 ->
         ParseArgFromField field
         = rangeArgItems (reflect.Name field) (S (List.length before)) after
             (withShortName argument (strings.ToLower caseLower tagValue))))
  /\ (forall argument,
       ParseArgFromField field = (argument, None) ->
       match lastValue "shortname" (tagPairs (argItemsOf field)) with
       | None => ShortName argument = EmptyString
       | Some tagValue =>
         String.length tagValue <= 1
         /\ ShortName argument = strings.ToLower caseLower tagValue
         /\ (strings.isASCII tagValue = true ->
             String.length (ShortName argument) <= 1
             /\ strings.ToLower caseLower (ShortName argument)
                = ShortName argument)
       end).
Proof.
  split.
  - intros before argItem after tagValue Hlen Hitems Hbefore Hnv argument.
    assert (Hpre : rangeArgItems (reflect.Name field) 0 before
                     (withLongName zeroArgument (defaultNameOf field))
                   = (argument, None)).
    { pose proof (rangeArgItems_accepted (reflect.Name field) before 0
                    (withLongName zeroArgument (defaultNameOf field)) Hbefore).
      subst argument. destruct (rangeArgItems _ _ _ _) as [a o].
      cbn [fst snd] in *. now subst o. }
    rewrite (ParseArgFromField_long _ Hlen), Hitems, rangeArgItems_app, Hpre.
    rewrite (rangeArgItems_step _ _ _ _ _ _ _ Hnv).
    change (processArg argument (reflect.Name field) "shortname" tagValue)
      with (processArgShortName argument (reflect.Name field) "shortname" tagValue).
    unfold processArgShortName.
    destruct (Nat.ltb_spec 1 (String.length tagValue)); split; intros;
      solve [reflexivity | lia].
  - intros argument H. pose proof (parsed_fields _ _ H) as (_ & _ & _ & _ & Hs).
    destruct (lastValue "shortname" _) as [tagValue|] eqn:Hlast; [|exact Hs].
    apply lastValue_In in Hlast.
    destruct (parsed_pair _ _ _ _ H Hlast) as (argItem & _ & _ & _ & Hshort).
    specialize (Hshort eq_refl).
    split; [exact Hshort|]. split; [exact Hs|].
    intros Hascii. rewrite Hs. split.
    + rewrite (ToLower_ASCII _ Hascii), lowerASCII_length. exact Hshort.
    + now apply ToLower_ASCII_idempotent.
Qed.

(** ** A name that does not start with an ASCII byte *)

Lemma byteZ_Zbyte r : (0 <= r <= 255)%Z -> utf8.byteZ (utf8.Zbyte r) = r.
Proof.
  intros Hr. unfold utf8.byteZ, utf8.Zbyte.
  change 255%Z with (Z.ones 8). rewrite Z.land_ones by lia.
  rewrite Z.mod_small by (change (2 ^ 8)%Z with 256%Z; lia).
  rewrite N_ascii_embedding by lia. lia.
Qed.

(** What [Map] writes for one rune is empty, one ASCII byte, or two
    bytes and more. *)
Lemma mapped_shape mapping c :
  strings.mapped mapping c = EmptyString
  \/ (exists b, strings.mapped mapping c = String b EmptyString
                /\ (utf8.byteZ b < 128)%Z)
  \/ (exists b1 b2 rest, strings.mapped mapping c = String b1 (String b2 rest)).
Proof.
  unfold strings.mapped. destruct (0 <=? mapping c)%Z; [|now left].
  right. unfold utf8.EncodeRune.
  destruct (utf8.between 0 (mapping c) 127) eqn:Hascii.
  - left. eexists. split; [reflexivity|].
    unfold utf8.between in Hascii. rewrite byteZ_Zbyte; lia.
  - right.
    repeat match goal with
    | |- context [if ?b then _ else _] => destruct b
    end; eauto.
Qed.

(** C1, at the field [Éa]: the parse succeeds, and its [LongName] is
    what [strings.ToLower] makes of the lone byte C3, which is no rune,
    followed by the bytes 89 61.  With a case table that leaves U+FFFD
    alone, as Go's does, that is the encoding of U+FFFD and then 89 61;
    with any table it is neither [éa] (C3 A9 61) nor the name with its
    first byte lower-cased and the rest unchanged (C3 89 61). *)
Theorem C1_name_with_wide_initial :
  ParseArgFromField fieldEa
  = (withRequired
       (withLongName zeroArgument
          (strings.mapped (unicode.ToLower caseLower) utf8.RuneError
             ++ String "137" "a"))
       true, None)
  /\ (caseLower utf8.RuneError = utf8.RuneError ->
      LongName (fst (ParseArgFromField fieldEa))
      = String "239" (String "191" (String "189" (String "137" "a"))))
  /\ LongName (fst (ParseArgFromField fieldEa))
     <> String "195" (String "169" "a")
  /\ LongName (fst (ParseArgFromField fieldEa))
     <> String (strings.lowerByte "195") (String "137" "a").
Proof.
  assert (Hparse : ParseArgFromField fieldEa
    = (withRequired
         (withLongName zeroArgument
            (strings.mapped (unicode.ToLower caseLower) utf8.RuneError
               ++ String "137" "a"))
         true, None)).
  { rewrite ParseArgFromField_long by (simpl; lia).
    unfold defaultNameOf. cbn [fieldEa reflect.Name].
    rewrite slice_first, slice_rest, ToLower_invalid_byte by reflexivity.
    reflexivity. }
  rewrite Hparse. cbn [fst LongName withRequired withLongName].
  split; [reflexivity|]. split; [|split].
  - intros Htable. unfold strings.mapped, unicode.ToLower.
    change (utf8.RuneError <=? unicode.MaxASCII)%Z with false. cbv iota.
    rewrite Htable. reflexivity.
  - destruct (mapped_shape (unicode.ToLower caseLower) utf8.RuneError)
      as [->|[(b & -> & _)|(b1 & b2 & rest & ->)]]; cbn [append];
      try discriminate.
    destruct rest as [|? [|? ?]]; cbn [append]; discriminate.
  - destruct (mapped_shape (unicode.ToLower caseLower) utf8.RuneError)
      as [->|[(b & -> & Hb)|(b1 & b2 & rest & ->)]]; cbn [append].
    + discriminate.
    + intros [= ->]. vm_compute in Hb. discriminate.
    + destruct rest as [|? [|? ?]]; cbn [append]; discriminate.
Qed.

(** C5, at the field [É]: its name is one character, the rune U+00C9,
    which takes the two bytes of the name.  The check of the name, which
    counts bytes, lets it pass: the parse succeeds, with no
    [FieldNameTooShort] error, and the [LongName] is what
    [strings.ToLower] makes of the lone byte C3, followed by the byte
    89. *)
Theorem C5_name_of_one_wide_character :
  utf8.DecodeRuneInString (reflect.Name fieldE) = (201%Z, 2)
  /\ String.length (reflect.Name fieldE) = 2
  /\ ParseArgFromField fieldE
     = (withRequired
          (withLongName zeroArgument
             (strings.mapped (unicode.ToLower caseLower) utf8.RuneError
                ++ String "137" EmptyString))
          true, None)
  /\ (forall fieldName,
       snd (ParseArgFromField fieldE) <> Some (FieldNameTooShort fieldName))
  /\ (caseLower utf8.RuneError = utf8.RuneError ->
      LongName (fst (ParseArgFromField fieldE))
      = String "239" (String "191" (String "189" (String "137" EmptyString)))).
Proof.
  assert (Hparse : ParseArgFromField fieldE
    = (withRequired
         (withLongName zeroArgument
            (strings.mapped (unicode.ToLower caseLower) utf8.RuneError
               ++ String "137" EmptyString))
         true, None)).
  { rewrite ParseArgFromField_long by (simpl; lia).
    unfold defaultNameOf. cbn [fieldE reflect.Name].
    rewrite slice_first, slice_rest, ToLower_invalid_byte by reflexivity.
    reflexivity. }
  split; [reflexivity|]. split; [reflexivity|]. split; [exact Hparse|].
  rewrite Hparse. cbn [fst snd LongName withRequired withLongName].
  split; [discriminate|].
  intros Htable. unfold strings.mapped, unicode.ToLower.
  change (utf8.RuneError <=? unicode.MaxASCII)%Z with false. cbv iota.
  rewrite Htable. reflexivity.
Qed.


(** ** The flag binder *)





Lemma parseArg_returns parmType variableName arg rawHelp :
  parseArg parmType variableName = Returns (arg, rawHelp) ->
  exists field,
    reflect.FieldByName parmType variableName = Some field
    /\ ParseArgFromField field = (arg, None)
    /\ rawHelp = reflect.Get (reflect.Tag field) "help".
Proof.
  unfold parseArg.
  destruct (reflect.FieldByName parmType variableName) as [field|]; [|discriminate].
  destruct (ParseArgFromField field) as [a [err|]] eqn:H; [discriminate|].
  intros [= <- <-]. eauto.
Qed.

(** The item of the tag that a default value comes from. *)
Lemma default_value_item field argument :
  ParseArgFromField field = (argument, None) ->
  HasDefaultValue argument = true ->
  exists argItem name,
    In argItem (argItemsOf field)
    /\ strings.Split argItem "=" = [name; DefaultValue argument]
    /\ strings.ToLower caseLower name = "defaultvalue".
Proof.
  intros H Hhas. pose proof (parsed_fields _ _ H) as (_ & _ & Hh & Hd & _).
  rewrite Hhas in Hh.
  destruct (lastValue "defaultvalue" _) as [v|] eqn:Hlast; [|discriminate].
  apply lastValue_In in Hlast.
  destruct (parsed_pair _ _ _ _ H Hlast) as (argItem & Hin & Hnv & _).
  apply nameValue_some in Hnv as (name & Hsplit & Hname).
  exists argItem, name. rewrite Hd. auto.
Qed.

(** C3: when the parsed [Argument] has no default value,
    [attachCommonArg] returns [nil] and the type assertion panics, in
    [AttachBoolArg] and in [AttachIntArg].  So a call of either that
    returns was given a field whose tag has a [defaultvalue] item, and
    the value of that item converts: [ParseBool], respectively [Atoi],
    accepts it. *)
Theorem C3_binder_needs_default cmd parmType variableName :
  (forall arg rawHelp,
     parseArg parmType variableName = Returns (arg, rawHelp) ->
     HasDefaultValue arg = false ->
     (forall converter,
        attachCommonArg arg parmType variableName converter = Returns Nil)
     /\ AttachBoolArg cmd parmType variableName
        = Panics (InterfaceConversion Nil "bool")
     /\ AttachIntArg cmd parmType variableName
        = Panics (InterfaceConversion Nil "int"))
  /\ (forall result,
       AttachBoolArg cmd parmType variableName = Returns result ->
       exists field argItem name tagValue,
         reflect.FieldByName parmType variableName = Some field
         /\ In argItem (argItemsOf field)
         /\ strings.Split argItem "=" = [name; tagValue]
         /\ strings.ToLower caseLower name = "defaultvalue"
         /\ strconv.ParseBool tagValue = (snd result, None))
  /\ (forall result,
       AttachIntArg cmd parmType variableName = Returns result ->
       exists field argItem name tagValue,
         reflect.FieldByName parmType variableName = Some field
         /\ In argItem (argItemsOf field)
         /\ strings.Split argItem "=" = [name; tagValue]
         /\ strings.ToLower caseLower name = "defaultvalue"
         /\ strconv.Atoi tagValue = (snd result, None)).
Proof.
  split; [|split].
  - intros arg rawHelp Hparse Hnone.
    assert (Hnil : forall converter,
              attachCommonArg arg parmType variableName converter = Returns Nil).
    { intros converter. unfold attachCommonArg. now rewrite Hnone. }
    split; [exact Hnil|].
    unfold AttachBoolArg, AttachIntArg. rewrite Hparse. cbn [bind].
    rewrite !Hnil. split; reflexivity.
  - intros result H. unfold AttachBoolArg in H.
    destruct (parseArg parmType variableName) as [[arg rawHelp]|] eqn:Hparse;
      [|discriminate].
    cbn [bind] in H. unfold attachCommonArg in H.
    destruct (HasDefaultValue arg) eqn:Hhas; [|discriminate].
    unfold booleanStringToValueConverter in H.
    destruct (strconv.ParseBool (DefaultValue arg)) as [b [err|]] eqn:Hconv;
      [discriminate|].
    cbn [bind assertBool] in H.
    destruct (registerFlag _ _ _ _ _) as [cmd1|]; [|discriminate].
    cbn [bind] in H.
    destruct (processRequiredArg cmd1 arg) as [cmd2|]; [|discriminate].
    injection H as <-. cbn [snd].
    apply parseArg_returns in Hparse as (field & Hfield & Hparsed & _).
    destruct (default_value_item _ _ Hparsed Hhas) as (argItem & name & ? & ? & ?).
    exists field, argItem, name, (DefaultValue arg). auto.
  - intros result H. unfold AttachIntArg in H.
    destruct (parseArg parmType variableName) as [[arg rawHelp]|] eqn:Hparse;
      [|discriminate].
    cbn [bind] in H. unfold attachCommonArg in H.
    destruct (HasDefaultValue arg) eqn:Hhas; [|discriminate].
    unfold intStringToValueConverter in H.
    destruct (strconv.Atoi (DefaultValue arg)) as [n [err|]] eqn:Hconv;
      [discriminate|].
    cbn [bind assertInt] in H.
    destruct (registerFlag _ _ _ _ _) as [cmd1|]; [|discriminate].
    cbn [bind] in H.
    destruct (processRequiredArg cmd1 arg) as [cmd2|]; [|discriminate].
    injection H as <-. cbn [snd].
    apply parseArg_returns in Hparse as (field & Hfield & Hparsed & _).
    destruct (default_value_item _ _ Hparsed Hhas) as (argItem & name & ? & ? & ?).
    exists field, argItem, name, (DefaultValue arg). auto.
Qed.


(** ** Further properties of the parser and the binder *)

(** A tag [required=true] sets [Required]; a tag [required=notabool] is
    refused with the [InvalidBooleanValue] error. *)
Theorem required_item field :
  2 <= String.length (reflect.Name field) ->
  (reflect.Get (reflect.Tag field) "arg" = "required=true" ->
   ParseArgFromField field
   = (withRequired (withLongName zeroArgument (defaultNameOf field)) true, None))
  /\ (reflect.Get (reflect.Tag field) "arg" = "required=notabool" ->
      ParseArgFromField field
      = (withLongName zeroArgument (defaultNameOf field),
         Some (InvalidBooleanValue (reflect.Name field) "required" "notabool"))).
Proof.
  intros Hlen. rewrite (ParseArgFromField_long _ Hlen). unfold argItemsOf.
  split; intros ->; reflexivity.
Qed.

(** A tag [shortname=ab] is refused with the [ShortNameTooLong] error,
    a tag [shortname=A] gives the [ShortName] [a], and so is a tag
    [shortname=é] refused: its value is one character of two bytes
    (C3 A9), and the length that is checked is that in bytes. *)
Theorem shortname_item field :
  2 <= String.length (reflect.Name field) ->
  (reflect.Get (reflect.Tag field) "arg" = "shortname=ab" ->
   ParseArgFromField field
   = (withLongName zeroArgument (defaultNameOf field),
      Some (ShortNameTooLong (reflect.Name field) "shortname" "ab")))
  /\ (reflect.Get (reflect.Tag field) "arg" = "shortname=A" ->
      ParseArgFromField field
      = (withShortName (withLongName zeroArgument (defaultNameOf field)) "a", None))
  /\ (reflect.Get (reflect.Tag field) "arg"
      = "shortname=" ++ String "195" (String "169" EmptyString) ->
      ParseArgFromField field
      = (withLongName zeroArgument (defaultNameOf field),
         Some (ShortNameTooLong (reflect.Name field) "shortname"
                 (String "195" (String "169" EmptyString))))).
Proof.
  intros Hlen. rewrite (ParseArgFromField_long _ Hlen). unfold argItemsOf.
  repeat split; intros ->; reflexivity.
Qed.

(** An item whose name is none of the four keys changes nothing and
    raises no error. *)
Theorem unrecognized_key_ignored argument fieldName tagName tagValue :
  tagName <> "required" -> tagName <> "longname" ->
  tagName <> "defaultvalue" -> tagName <> "shortname" ->
  processArg argument fieldName tagName tagValue = (argument, None).
Proof.
  intros H1 H2 H3 H4. unfold processArg.
  apply String.eqb_neq in H1, H2, H3, H4. now rewrite H1, H2, H3, H4.
Qed.

Lemma rangeArgItems_error_kind fieldName argItems :
  forall index argument argument' err,
  rangeArgItems fieldName index argItems argument = (argument', Some err) ->
  (exists i, index <= i < index + List.length argItems
             /\ err = MalformedTagItem i fieldName)
  \/ (exists tagValue, err = InvalidBooleanValue fieldName "required" tagValue)
  \/ (exists tagValue, err = ShortNameTooLong fieldName "shortname" tagValue).
Proof.
  induction argItems as [|argItem argItems IH]; intros index argument argument' err H.
  - discriminate.
  - cbn [List.length].
    destruct (nameValue argItem) as [[name tagValue]|] eqn:Hnv.
    + rewrite (rangeArgItems_step _ _ _ _ _ _ _ Hnv) in H.
      destruct (processArg argument fieldName name tagValue) as [a1 [e|]] eqn:Hp.
      * injection H as <- <-.
        apply processArg_error in Hp as [_ [(-> & _ & ->)|(-> & _ & ->)]]; eauto.
      * apply IH in H as [(i & Hi & ->)|H]; [left|right; exact H].
        exists i. split; [lia | reflexivity].
    + rewrite (rangeArgItems_malformed _ _ _ _ _ Hnv) in H.
      injection H as <- <-. left. exists index. split; [lia | reflexivity].
Qed.

(** X15: the parser returns four kinds of error and no other, each naming
    the field: the name is too short, an item (at an index within the
    tag) is malformed, a [required] value is no boolean, a [shortname]
    value is too long. *)
Theorem parser_error_kinds field argument err :
  ParseArgFromField field = (argument, Some err) ->
  err = FieldNameTooShort (reflect.Name field)
  \/ (exists index, index < List.length (argItemsOf field)
                    /\ err = MalformedTagItem index (reflect.Name field))
  \/ (exists tagValue,
        err = InvalidBooleanValue (reflect.Name field) "required" tagValue)
  \/ (exists tagValue,
        err = ShortNameTooLong (reflect.Name field) "shortname" tagValue).
Proof.
  intros H.
  destruct (Nat.lt_ge_cases (String.length (reflect.Name field)) 2) as [Hlt|Hge].
  - rewrite (ParseArgFromField_short _ Hlt) in H. injection H as <- <-. now left.
  - rewrite (ParseArgFromField_long _ Hge) in H. right.
    apply rangeArgItems_error_kind in H as [(i & Hi & ->)|H]; [left|right; exact H].
    exists i. split; [lia | reflexivity].
Qed.

(** X16: the help text starts with [MANDATORY: ] exactly when the argument
    is required, and with [optional: ] otherwise; the raw help follows. *)
Theorem help_prefix arg rawHelp :
  (Required arg = true <-> String.prefix "MANDATORY: " (rationalizeHelp arg rawHelp) = true)
  /\ (Required arg = false <-> String.prefix "optional: " (rationalizeHelp arg rawHelp) = true)
  /\ rationalizeHelp arg rawHelp
     = (if Required arg then "MANDATORY: " else "optional: ") ++ rawHelp.
Proof.
  unfold rationalizeHelp. destruct (Required arg); cbn; repeat split;
    solve [trivial | discriminate | intros _; destruct rawHelp; reflexivity].
Qed.

(** The field [UserName] tagged [required=true,shortname=u] is
    parsed as required, with the long name [userName], the short name
    [u] and no default value. *)
Theorem scenario_UserName :
  ParseArgFromField (tagged "UserName" "required=true,shortname=u")
  = ({| Required := true; LongName := "userName"; ShortName := "u";
        HasDefaultValue := false; DefaultValue := EmptyString |}, None).
Proof. reflexivity. Qed.

(** On a command without flags, the field [Port] tagged
    [defaultvalue=8080] is bound with the integer 8080 as its default,
    and the field [Verbose] tagged [defaultvalue=true] with the boolean
    [true]. *)
Theorem scenario_Port_Verbose :
  AttachIntArg [] config "Port"
  = Returns ([{| cobra.Name := "port"; cobra.Shorthand := EmptyString;
                 cobra.Usage := "optional: ";
                 cobra.DefValue := cobra.IntValue 8080;
                 cobra.Required := false |}], 8080%Z)
  /\ AttachBoolArg [] config "Verbose"
     = Returns ([{| cobra.Name := "verbose"; cobra.Shorthand := EmptyString;
                    cobra.Usage := "optional: ";
                    cobra.DefValue := cobra.BoolValue true;
                    cobra.Required := false |}], true).
Proof. split; reflexivity. Qed.

(** X17: a field that the struct type does not have, a tag that does not
    parse and a default value that does not convert each end a binder
    in a panic. *)
Theorem binder_panics cmd parmType variableName otherArgs :
  (reflect.FieldByName parmType variableName = None ->
   AttachStringArg cmd parmType variableName otherArgs
   = Panics (NoSuchVariable variableName)
   /\ AttachBoolArg cmd parmType variableName
      = Panics (NoSuchVariable variableName)
   /\ AttachIntArg cmd parmType variableName
      = Panics (NoSuchVariable variableName))
  /\ (forall field argument err,
       reflect.FieldByName parmType variableName = Some field ->
       ParseArgFromField field = (argument, Some err) ->
       AttachStringArg cmd parmType variableName otherArgs = Panics (BadField field)
       /\ AttachBoolArg cmd parmType variableName = Panics (BadField field)
       /\ AttachIntArg cmd parmType variableName = Panics (BadField field))
  /\ (forall arg rawHelp,
       parseArg parmType variableName = Returns (arg, rawHelp) ->
       HasDefaultValue arg = true ->
       (snd (strconv.ParseBool (DefaultValue arg)) <> None ->
        AttachBoolArg cmd parmType variableName
        = Panics (BadDefaultValue (reflect.TypeName parmType) variableName
                    (DefaultValue arg)))
       /\ (snd (strconv.Atoi (DefaultValue arg)) <> None ->
           AttachIntArg cmd parmType variableName
           = Panics (BadDefaultValue (reflect.TypeName parmType) variableName
                       (DefaultValue arg)))).
Proof.
  unfold AttachStringArg, AttachBoolArg, AttachIntArg.
  split; [|split].
  - unfold parseArg. intros ->. repeat split.
  - unfold parseArg. intros field argument err -> ->. repeat split.
  - intros arg rawHelp Hparse Hhas.
    rewrite Hparse. cbn [bind]. unfold attachCommonArg. rewrite Hhas.
    unfold booleanStringToValueConverter, intStringToValueConverter.
    split; intros Herr.
    + destruct (strconv.ParseBool (DefaultValue arg)) as [b [e|]];
        [reflexivity | now contradiction Herr].
    + destruct (strconv.Atoi (DefaultValue arg)) as [n [e|]];
        [reflexivity | now contradiction Herr].
Qed.

(** ** Success and failure of the parser *)

Lemma accepted_dec argItem : accepted argItem \/ ~ accepted argItem.
Proof.
  unfold accepted.
  destruct (nameValue argItem) as [[name tagValue]|] eqn:Hnv.
  2: { right. intros (n & v & [=] & _). }
  destruct (processArg zeroArgument EmptyString name tagValue) as [a [err|]] eqn:Hp.
  - right. intros (n & v & [= <- <-] & Hreq & Hshort).
    pose proof (processArg_accepts zeroArgument EmptyString name tagValue Hreq Hshort)
      as Hok.
    rewrite Hp in Hok. discriminate.
  - left. exists name, tagValue. split; [reflexivity|]. split; intros ->.
    + change (processArgRequired zeroArgument EmptyString "required" tagValue
              = (a, None)) in Hp.
      unfold processArgRequired in Hp.
      destruct (strconv.ParseBool tagValue) as [b [e|]]; [discriminate|reflexivity].
    + change (processArgShortName zeroArgument EmptyString "shortname" tagValue
              = (a, None)) in Hp.
      unfold processArgShortName in Hp.
      destruct (Nat.ltb_spec 1 (String.length tagValue)); [discriminate|lia].
Qed.

(** An item that is not accepted ends the loop with its error, and the
    [Argument] is left as it was. *)
Lemma rangeArgItems_rejected fieldName index argItem argItems argument :
  ~ accepted argItem ->
  rangeArgItems fieldName index (argItem :: argItems) argument
  = (argument, Some (errorOf fieldName index argItem)).
Proof.
  intros Hrej. unfold errorOf.
  destruct (nameValue argItem) as [[name tagValue]|] eqn:Hnv.
  2: { now apply rangeArgItems_malformed. }
  rewrite (rangeArgItems_step _ _ _ _ _ _ _ Hnv).
  destruct (processArg argument fieldName name tagValue) as [a [err|]] eqn:Hp.
  - apply processArg_error in Hp as [-> [(-> & _ & ->)|(-> & _ & ->)]]; reflexivity.
  - exfalso. apply Hrej. exists name, tagValue. split; [exact Hnv|].
    split; intros ->.
    + change (processArgRequired argument fieldName "required" tagValue
              = (a, None)) in Hp.
      unfold processArgRequired in Hp.
      destruct (strconv.ParseBool tagValue) as [b [e|]]; [discriminate|reflexivity].
    + change (processArgShortName argument fieldName "shortname" tagValue
              = (a, None)) in Hp.
      unfold processArgShortName in Hp.
      destruct (Nat.ltb_spec 1 (String.length tagValue)); [discriminate|lia].
Qed.

(** X2: the parser succeeds exactly when the name of the field has at
    least 2 bytes and every item of the tag is accepted: it holds one
    [=], a [required] value is a boolean literal and a [shortname] value
    has at most one byte. *)
Theorem parse_succeeds_iff field :
  snd (ParseArgFromField field) = None
  <-> 2 <= String.length (reflect.Name field)
      /\ Forall accepted (argItemsOf field).
Proof.
  split.
  - intros H. destruct (ParseArgFromField field) as [a o] eqn:Hp.
    cbn [snd] in H. subst o.
    pose proof (ParseArgFromField_success _ _ Hp) as Hlen. split; [exact Hlen|].
    rewrite (ParseArgFromField_long _ Hlen) in Hp.
    now apply rangeArgItems_success in Hp.
  - intros [Hlen Hall]. rewrite (ParseArgFromField_long _ Hlen).
    now apply rangeArgItems_accepted.
Qed.

(** X3: when the name of the field has at least 2 bytes, the error of
    the parser is that of the first item that is not accepted, and the
    [Argument] returned with it is what the items before that one made;
    no later item has any effect. *)
Theorem first_rejected_item field before argItem after :
  2 <= String.length (reflect.Name field) ->
  argItemsOf field = (before ++ argItem :: after)%list ->
  Forall accepted before ->
  ~ accepted argItem ->
  ParseArgFromField field
  = (fst (rangeArgItems (reflect.Name field) 0 before
            (withLongName zeroArgument (defaultNameOf field))),
     Some (errorOf (reflect.Name field) (List.length before) argItem)).
Proof.
  intros Hlen Hitems Hbefore Hrej.
  rewrite (ParseArgFromField_long _ Hlen), Hitems, rangeArgItems_app.
  pose proof (rangeArgItems_accepted (reflect.Name field) before 0
                (withLongName zeroArgument (defaultNameOf field)) Hbefore) as Hok.
  destruct (rangeArgItems (reflect.Name field) 0 before _) as [a [err|]];
    [discriminate|].
  now rewrite (rangeArgItems_rejected _ _ _ _ _ Hrej).
Qed.

Lemma ParseBool_cases tagValue :
  (In tagValue trueLiterals /\ strconv.ParseBool tagValue = (true, None))
  \/ (In tagValue falseLiterals /\ strconv.ParseBool tagValue = (false, None))
  \/ (~ In tagValue trueLiterals /\ ~ In tagValue falseLiterals
      /\ strconv.ParseBool tagValue = (false, Some strconv.ErrSyntax)).
Proof.
  unfold strconv.ParseBool. fold trueLiterals falseLiterals.
  assert (Hin : forall l, existsb (String.eqb tagValue) l = true <-> In tagValue l).
  { intros l. rewrite existsb_exists. split.
    - intros (x & Hx & Heq). apply String.eqb_eq in Heq. now subst.
    - intros H. exists tagValue. split; [exact H | apply String.eqb_refl]. }
  destruct (existsb (String.eqb tagValue) trueLiterals) eqn:Ht.
  - left. split; [now apply Hin | reflexivity].
  - right. assert (Hnt : ~ In tagValue trueLiterals).
    { intros H. apply Hin in H. congruence. }
    destruct (existsb (String.eqb tagValue) falseLiterals) eqn:Hf.
    + left. split; [now apply Hin | reflexivity].
    + right. split; [exact Hnt|]. split; [|reflexivity].
      intros H. apply Hin in H. congruence.
Qed.

(** X4: after a successful parse [Required] is false when the tag has no
    [required] item; otherwise the value of the last one is one of the
    literals of [ParseBool], and [Required] is true when it is one of
    [1], [t], [T], [TRUE], [true], [True] and false when it is one of
    [0], [f], [F], [FALSE], [false], [False]. *)
Theorem required_literals field argument :
  ParseArgFromField field = (argument, None) ->
  match lastValue "required" (tagPairs (argItemsOf field)) with
  | None => Required argument = false
  | Some tagValue =>
    (In tagValue trueLiterals /\ Required argument = true)
    \/ (In tagValue falseLiterals /\ Required argument = false)
  end.
Proof.
  intros H. pose proof (parsed_fields _ _ H) as (Hr & _).
  destruct (lastValue "required" _) as [tagValue|] eqn:Hlast; [|exact Hr].
  apply lastValue_In in Hlast.
  destruct (parsed_pair _ _ _ _ H Hlast) as (_ & _ & _ & Hbool & _).
  specialize (Hbool eq_refl). rewrite Hr.
  destruct (ParseBool_cases tagValue) as [[Hin ->]|[[Hin ->]|(_ & _ & Herr)]].
  - left. auto.
  - right. auto.
  - rewrite Herr in Hbool. discriminate.
Qed.

(** ** What the parser looks at *)

Lemma rangeArgItems_same_pairs fieldName argItems1 :
  forall argItems2 index argument,
  map nameValue argItems1 = map nameValue argItems2 ->
  rangeArgItems fieldName index argItems1 argument
  = rangeArgItems fieldName index argItems2 argument.
Proof.
  induction argItems1 as [|x xs IH]; intros [|y ys] index argument Hmap;
    try discriminate; [reflexivity|].
  cbn [map] in Hmap. injection Hmap as Hxy Hrest.
  destruct (nameValue x) as [[name tagValue]|] eqn:Hx; symmetry in Hxy.
  - rewrite (rangeArgItems_step _ _ _ _ _ _ _ Hx),
            (rangeArgItems_step _ _ _ _ _ _ _ Hxy).
    destruct (processArg argument fieldName name tagValue) as [a [err|]];
      [reflexivity | now apply IH].
  - now rewrite (rangeArgItems_malformed _ _ _ _ _ Hx),
                (rangeArgItems_malformed _ _ _ _ _ Hxy).
Qed.

(** X5: of the items of a tag the parser sees the name in lower case and
    the value, and whether the item holds one [=]: two fields of the
    same name whose tags agree on these, item by item, are parsed alike.
    So the case of a key does not matter, and that of a value is kept. *)
Theorem keys_in_any_case field1 field2 :
  reflect.Name field1 = reflect.Name field2 ->
  map nameValue (argItemsOf field1) = map nameValue (argItemsOf field2) ->
  ParseArgFromField field1 = ParseArgFromField field2.
Proof.
  intros Hname Hitems. unfold ParseArgFromField. rewrite <- Hname.
  destruct (Nat.ltb (String.length (reflect.Name field1)) 2); [reflexivity|].
  now apply rangeArgItems_same_pairs.
Qed.

(** The index an item is counted from shows in the index of a
    malformed-item error and nowhere else. *)
Lemma rangeArgItems_index fieldName argItems : forall index1 index2 argument,
  fst (rangeArgItems fieldName index1 argItems argument)
  = fst (rangeArgItems fieldName index2 argItems argument)
  /\ (snd (rangeArgItems fieldName index1 argItems argument) = None
      <-> snd (rangeArgItems fieldName index2 argItems argument) = None).
Proof.
  induction argItems as [|argItem argItems IH]; intros index1 index2 argument.
  - split; reflexivity.
  - destruct (nameValue argItem) as [[name tagValue]|] eqn:Hnv.
    + rewrite !(rangeArgItems_step _ _ _ _ _ _ _ Hnv).
      destruct (processArg argument fieldName name tagValue) as [a [err|]].
      * split; reflexivity.
      * apply IH.
    + rewrite !(rangeArgItems_malformed _ _ _ _ _ Hnv). cbn [fst snd].
      split; [reflexivity | split; discriminate].
Qed.

(** X6: an item whose name is none of the four keys is stepped over.
    Of two fields of the same name whose tags differ by one such item,
    one is parsed with success exactly when the other is, and the
    [Argument] returned is the same. *)
Theorem unrecognized_item_ignored field1 field2 before argItem after name tagValue :
  reflect.Name field1 = reflect.Name field2 ->
  argItemsOf field1 = (before ++ argItem :: after)%list ->
  argItemsOf field2 = (before ++ after)%list ->
  nameValue argItem = Some (name, tagValue) ->
  ~ recognized name ->
  fst (ParseArgFromField field1) = fst (ParseArgFromField field2)
  /\ (snd (ParseArgFromField field1) = None
      <-> snd (ParseArgFromField field2) = None).
Proof.
  intros Hname Hitems1 Hitems2 Hnv Hother.
  assert (Hdefault : defaultNameOf field1 = defaultNameOf field2)
    by (unfold defaultNameOf; now rewrite Hname).
  destruct (Nat.lt_ge_cases (String.length (reflect.Name field1)) 2) as [Hlt|Hge].
  - rewrite (ParseArgFromField_short _ Hlt).
    rewrite Hname in Hlt. rewrite (ParseArgFromField_short _ Hlt).
    split; [reflexivity | split; discriminate].
  - rewrite (ParseArgFromField_long _ Hge).
    rewrite Hname in Hge. rewrite (ParseArgFromField_long _ Hge).
    rewrite Hitems1, Hitems2, Hname, Hdefault, !rangeArgItems_app.
    destruct (rangeArgItems (reflect.Name field2) 0 before _) as [a [err|]].
    + split; reflexivity.
    + rewrite (rangeArgItems_step _ _ _ _ _ _ _ Hnv).
      assert (Hstep : processArg a (reflect.Name field2) name tagValue = (a, None)).
      { unfold processArg, recognized in *.
        by_tag_name name; try reflexivity; exfalso; apply Hother; auto. }
      rewrite Hstep. apply rangeArgItems_index.
Qed.

Lemma append_assoc (s1 s2 s3 : string) : (s1 ++ s2) ++ s3 = s1 ++ (s2 ++ s3).
Proof. induction s1 as [|c s1 IH]; simpl; [reflexivity | now rewrite IH]. Qed.

(** X7: the message of every error that the parser returns names the
    field, and that of a malformed item also holds its index in decimal. *)
Theorem error_names_field field argument err :
  ParseArgFromField field = (argument, Some err) ->
  (exists before after, Error err = before ++ reflect.Name field ++ after)
  /\ forall index fieldName,
       err = MalformedTagItem index fieldName ->
       exists after, Error err = "arg item at " ++ itoa index ++ after.
Proof.
  intros H. split.
  - destruct (Nat.lt_ge_cases (String.length (reflect.Name field)) 2) as [Hlt|Hge].
    + rewrite (ParseArgFromField_short _ Hlt) in H. injection H as <- <-.
      cbn [Error]. eauto.
    + rewrite (ParseArgFromField_long _ Hge) in H.
      apply rangeArgItems_error_kind in H as [(i & _ & ->)|[[v ->]|[v ->]]];
        cbn [Error].
      * exists ("arg item at " ++ itoa i ++ " index for field '").
        eexists. now rewrite !append_assoc.
      * eauto.
      * eauto.
  - intros index fieldName ->. cbn [Error]. eauto.
Qed.

(** ** What every returned [Argument] satisfies *)

(** A property of the [Argument] that every item keeps is kept by the
    loop, whether it ends in an error or not. *)
Lemma rangeArgItems_invariant (P : Argument -> Prop) fieldName :
  (forall argument name tagValue,
     P argument -> P (fst (processArg argument fieldName name tagValue))) ->
  forall argItems index argument,
  P argument -> P (fst (rangeArgItems fieldName index argItems argument)).
Proof.
  intros Hstep. induction argItems as [|argItem argItems IH];
    intros index argument HP; [exact HP|].
  destruct (nameValue argItem) as [[name tagValue]|] eqn:Hnv.
  - rewrite (rangeArgItems_step _ _ _ _ _ _ _ Hnv).
    specialize (Hstep argument name tagValue HP).
    destruct (processArg argument fieldName name tagValue) as [a [err|]];
      [exact Hstep | now apply IH].
  - now rewrite (rangeArgItems_malformed _ _ _ _ _ Hnv).
Qed.

Lemma returned_argument_default field :
  HasDefaultValue (fst (ParseArgFromField field)) = false ->
  DefaultValue (fst (ParseArgFromField field)) = EmptyString.
Proof.
  destruct (Nat.lt_ge_cases (String.length (reflect.Name field)) 2) as [Hlt|Hge].
  - now rewrite (ParseArgFromField_short _ Hlt).
  - rewrite (ParseArgFromField_long _ Hge).
    apply (rangeArgItems_invariant
             (fun a => HasDefaultValue a = false -> DefaultValue a = EmptyString));
      [|reflexivity].
    intros a name tagValue Hd. unfold processArg. by_tag_name name;
      try exact Hd.
    + unfold processArgRequired.
      destruct (strconv.ParseBool tagValue) as [b [e|]]; exact Hd.
    + unfold processArgLongName. destruct tagValue; exact Hd.
    + discriminate.
    + unfold processArgShortName.
      destruct (Nat.ltb 1 (String.length tagValue)); exact Hd.
Qed.

(** X13: the [Argument] that the parser returns, with an error or
    without, has an empty [DefaultValue] unless [HasDefaultValue] is
    set, and a [ShortName] that is empty or the lower-casing of a value
    of at most one byte; and unless the error is that of the name, its
    [LongName] is not empty. *)
Theorem returned_argument field :
  let argument := fst (ParseArgFromField field) in
  (HasDefaultValue argument = false -> DefaultValue argument = EmptyString)
  /\ (exists tagValue, String.length tagValue <= 1
                       /\ ShortName argument = strings.ToLower caseLower tagValue)
  /\ (2 <= String.length (reflect.Name field) -> LongName argument <> EmptyString).
Proof.
  set (P := fun a : Argument =>
    (HasDefaultValue a = false -> DefaultValue a = EmptyString)
    /\ (exists tagValue, String.length tagValue <= 1
                         /\ ShortName a = strings.ToLower caseLower tagValue)
    /\ (2 <= String.length (reflect.Name field) -> LongName a <> EmptyString)).
  change (P (fst (ParseArgFromField field))).
  assert (Hstep : forall argument name tagValue,
            P argument ->
            P (fst (processArg argument (reflect.Name field) name tagValue))).
  { intros a name tagValue (Hd & Hs & Hl). unfold processArg. by_tag_name name.
    - unfold processArgRequired.
      destruct (strconv.ParseBool tagValue) as [b [e|]]; repeat split; assumption.
    - unfold processArgLongName. destruct tagValue as [|c rest]; cbn [fst].
      + repeat split; assumption.
      + split; [exact Hd|]. split; [exact Hs|]. intros _. discriminate.
    - cbn [fst processArgDefaultValue]. split; [discriminate|]. split; assumption.
    - unfold processArgShortName.
      destruct (Nat.ltb_spec 1 (String.length tagValue)); cbn [fst].
      + repeat split; assumption.
      + split; [exact Hd|]. split; [|exact Hl]. exists tagValue. auto.
    - repeat split; assumption. }
  destruct (Nat.lt_ge_cases (String.length (reflect.Name field)) 2) as [Hlt|Hge].
  - rewrite (ParseArgFromField_short _ Hlt). cbn [fst]. split; [reflexivity|].
    split; [|lia]. exists EmptyString. split; [simpl; lia | reflexivity].
  - rewrite (ParseArgFromField_long _ Hge).
    apply rangeArgItems_invariant; [exact Hstep|].
    split; [reflexivity|]. split.
    + exists EmptyString. split; [simpl; lia | reflexivity].
    + intros _. now apply defaultNameOf_not_empty.
Qed.

(** ** The flag set under the binders *)

Lemma Lookup_app cmd flag name :
  cobra.Lookup (cmd ++ [flag])%list name
  = match cobra.Lookup cmd name with
    | Some found => Some found
    | None => if String.eqb (cobra.Name flag) name then Some flag else None
    end.
Proof.
  unfold cobra.Lookup. induction cmd as [|f cmd IH]; cbn [List.app find].
  - reflexivity.
  - destruct (String.eqb (cobra.Name f) name); [reflexivity | exact IH].
Qed.

Lemma lookupShorthand_app cmd flag shorthand :
  cobra.lookupShorthand (cmd ++ [flag])%list shorthand
  = match cobra.lookupShorthand cmd shorthand with
    | Some found => Some found
    | None => if String.eqb (cobra.Shorthand flag) shorthand then Some flag else None
    end.
Proof.
  unfold cobra.lookupShorthand. induction cmd as [|f cmd IH]; cbn [List.app find].
  - reflexivity.
  - destruct (String.eqb (cobra.Shorthand f) shorthand); [reflexivity | exact IH].
Qed.

(** Marking the flag that was registered last, under a name that no
    other flag has, touches that flag alone. *)
Lemma MarkFlagRequired_last cmd flag :
  cobra.Lookup cmd (cobra.Name flag) = None ->
  cobra.MarkFlagRequired (cmd ++ [flag])%list (cobra.Name flag)
  = Some (cmd ++ [cobra.setRequired flag])%list.
Proof.
  intros Hnone. unfold cobra.MarkFlagRequired.
  rewrite Lookup_app, Hnone, String.eqb_refl, map_app. cbn [map].
  rewrite String.eqb_refl. f_equal. f_equal.
  rewrite <- (map_id cmd) at 2. apply map_ext_in. intros f Hin.
  unfold cobra.Lookup in Hnone.
  now rewrite (find_none _ _ Hnone f Hin).
Qed.

(** The end of every binder, the registration of the flag and the mark
    on it: it returns exactly when the command has room for the flag,
    the flag is then added behind the others, which stay as they are;
    otherwise the flag set panics. *)
Lemma register_and_mark cmd arg value rawHelp :
  (free cmd arg
   /\ (cmd1 <- registerFlag cmd value (LongName arg) (ShortName arg)
                 (rationalizeHelp arg rawHelp) ;;
       processRequiredArg cmd1 arg)
      = Returns (cmd ++ [flagOf arg value rawHelp])%list)
  \/ (~ free cmd arg
      /\ exists p,
           (cmd1 <- registerFlag cmd value (LongName arg) (ShortName arg)
                     (rationalizeHelp arg rawHelp) ;;
            processRequiredArg cmd1 arg)
           = Panics (FlagSetPanic p)
           /\ (cobra.Lookup cmd (LongName arg) <> None ->
               p = cobra.FlagRedefined (LongName arg))).
Proof.
  unfold registerFlag, cobra.VarP, free.
  set (flag := {| cobra.Name := LongName arg; cobra.Shorthand := ShortName arg;
                  cobra.Usage := rationalizeHelp arg rawHelp;
                  cobra.DefValue := value; cobra.Required := false |}).
  assert (Hmark : cobra.Lookup cmd (LongName arg) = None ->
            processRequiredArg (cmd ++ [flag])%list arg
            = Returns (cmd ++ [flagOf arg value rawHelp])%list).
  { intros Hnone. unfold processRequiredArg, flagOf.
    destruct (Required arg) eqn:Hreq; [|reflexivity].
    change (LongName arg) with (cobra.Name flag) at 1.
    now rewrite (MarkFlagRequired_last cmd flag Hnone). }
  destruct (cobra.Lookup cmd (LongName arg)) as [taken|] eqn:Hlong.
  - right. split; [intros [[=] _]|]. eexists. split; [reflexivity | reflexivity].
  - destruct (String.eqb_spec (ShortName arg) EmptyString) as [Hempty|Hfull].
    + left. cbn [bind]. split; [auto | now apply Hmark].
    + destruct (Nat.ltb_spec 1 (String.length (ShortName arg))) as [Hwide|Hone].
      * right. split.
        -- intros [_ [H|[H _]]]; [contradiction | lia].
        -- eexists. split; [reflexivity | intros H; now contradiction H].
      * destruct (cobra.lookupShorthand cmd (ShortName arg)) as [used|] eqn:Hshort.
        -- right. split.
           ++ intros [_ [H|[_ H]]]; [contradiction | discriminate].
           ++ eexists. split; [reflexivity | intros H; now contradiction H].
        -- left. cbn [bind]. split; [auto | now apply Hmark].
Qed.

Lemma register_and_mark_returns cmd arg value rawHelp cmd' :
  (cmd1 <- registerFlag cmd value (LongName arg) (ShortName arg)
             (rationalizeHelp arg rawHelp) ;;
   processRequiredArg cmd1 arg) = Returns cmd'
  <-> free cmd arg /\ cmd' = (cmd ++ [flagOf arg value rawHelp])%list.
Proof.
  destruct (register_and_mark cmd arg value rawHelp)
    as [[Hfree ->]|[Hnot (p & -> & _)]]; split.
  - intros [= <-]. auto.
  - intros [_ ->]. reflexivity.
  - discriminate.
  - intros [Hfree _]. contradiction.
Qed.

(** ** The binders, from the call to the flag *)

Lemma binder_end {A : Type} cmd arg value rawHelp (x : A) :
  (cmd1 <- registerFlag cmd value (LongName arg) (ShortName arg)
             (rationalizeHelp arg rawHelp) ;;
   cmd2 <- processRequiredArg cmd1 arg ;;
   Returns (cmd2, x))
  = (cmd2 <- (cmd1 <- registerFlag cmd value (LongName arg) (ShortName arg)
                        (rationalizeHelp arg rawHelp) ;;
              processRequiredArg cmd1 arg) ;;
     Returns (cmd2, x)).
Proof. destruct (registerFlag _ _ _ _ _); reflexivity. Qed.

Lemma AttachStringArg_parsed cmd parmType variableName otherArgs arg rawHelp :
  parseArg parmType variableName = Returns (arg, rawHelp) ->
  AttachStringArg cmd parmType variableName otherArgs
  = (cmd2 <- (cmd1 <- registerFlag cmd
                        (cobra.StringValue (stringDefault arg otherArgs))
                        (LongName arg) (ShortName arg)
                        (rationalizeHelp arg rawHelp) ;;
              processRequiredArg cmd1 arg) ;;
     Returns (cmd2, stringDefault arg otherArgs)).
Proof.
  intros Hparse. unfold AttachStringArg. rewrite Hparse. cbn [bind].
  rewrite <- binder_end. unfold stringDefault.
  destruct otherArgs; reflexivity.
Qed.

Lemma AttachBoolArg_parsed cmd parmType variableName arg rawHelp b :
  parseArg parmType variableName = Returns (arg, rawHelp) ->
  HasDefaultValue arg = true ->
  strconv.ParseBool (DefaultValue arg) = (b, None) ->
  AttachBoolArg cmd parmType variableName
  = (cmd2 <- (cmd1 <- registerFlag cmd (cobra.BoolValue b)
                        (LongName arg) (ShortName arg)
                        (rationalizeHelp arg rawHelp) ;;
              processRequiredArg cmd1 arg) ;;
     Returns (cmd2, b)).
Proof.
  intros Hparse Hhas Hconv. unfold AttachBoolArg. rewrite Hparse. cbn [bind].
  unfold attachCommonArg, booleanStringToValueConverter. rewrite Hhas, Hconv.
  cbn [bind assertBool]. now rewrite <- binder_end.
Qed.

Lemma AttachIntArg_parsed cmd parmType variableName arg rawHelp n :
  parseArg parmType variableName = Returns (arg, rawHelp) ->
  HasDefaultValue arg = true ->
  strconv.Atoi (DefaultValue arg) = (n, None) ->
  AttachIntArg cmd parmType variableName
  = (cmd2 <- (cmd1 <- registerFlag cmd (cobra.IntValue n)
                        (LongName arg) (ShortName arg)
                        (rationalizeHelp arg rawHelp) ;;
              processRequiredArg cmd1 arg) ;;
     Returns (cmd2, n)).
Proof.
  intros Hparse Hhas Hconv. unfold AttachIntArg. rewrite Hparse. cbn [bind].
  unfold attachCommonArg, intStringToValueConverter. rewrite Hhas, Hconv.
  cbn [bind assertInt]. now rewrite <- binder_end.
Qed.

(** What stops [AttachBoolArg] and [AttachIntArg] before the flag set
    is reached. *)
Lemma AttachBoolArg_stopped cmd parmType variableName arg rawHelp :
  parseArg parmType variableName = Returns (arg, rawHelp) ->
  (HasDefaultValue arg = false
   /\ AttachBoolArg cmd parmType variableName
      = Panics (InterfaceConversion Nil "bool"))
  \/ (HasDefaultValue arg = true
      /\ snd (strconv.ParseBool (DefaultValue arg)) <> None
      /\ AttachBoolArg cmd parmType variableName
         = Panics (BadDefaultValue (reflect.TypeName parmType) variableName
                     (DefaultValue arg)))
  \/ (HasDefaultValue arg = true
      /\ exists b, strconv.ParseBool (DefaultValue arg) = (b, None)).
Proof.
  intros Hparse. unfold AttachBoolArg. rewrite Hparse. cbn [bind].
  unfold attachCommonArg, booleanStringToValueConverter.
  destruct (HasDefaultValue arg); [|left; auto].
  right. destruct (strconv.ParseBool (DefaultValue arg)) as [b [e|]].
  - left. repeat split. discriminate.
  - right. eauto.
Qed.

Lemma AttachIntArg_stopped cmd parmType variableName arg rawHelp :
  parseArg parmType variableName = Returns (arg, rawHelp) ->
  (HasDefaultValue arg = false
   /\ AttachIntArg cmd parmType variableName
      = Panics (InterfaceConversion Nil "int"))
  \/ (HasDefaultValue arg = true
      /\ snd (strconv.Atoi (DefaultValue arg)) <> None
      /\ AttachIntArg cmd parmType variableName
         = Panics (BadDefaultValue (reflect.TypeName parmType) variableName
                     (DefaultValue arg)))
  \/ (HasDefaultValue arg = true
      /\ exists n, strconv.Atoi (DefaultValue arg) = (n, None)).
Proof.
  intros Hparse. unfold AttachIntArg. rewrite Hparse. cbn [bind].
  unfold attachCommonArg, intStringToValueConverter.
  destruct (HasDefaultValue arg); [|left; auto].
  right. destruct (strconv.Atoi (DefaultValue arg)) as [n [e|]].
  - left. repeat split. discriminate.
  - right. eauto.
Qed.

Lemma parseArg_panics parmType variableName p :
  parseArg parmType variableName = Panics p ->
  p = NoSuchVariable variableName \/ exists field, p = BadField field.
Proof.
  unfold parseArg.
  destruct (reflect.FieldByName parmType variableName) as [field|].
  - destruct (ParseArgFromField field) as [a [err|]]; [|discriminate].
    intros [= <-]. eauto.
  - intros [= <-]. auto.
Qed.

Lemma AttachStringArg_returns cmd parmType variableName otherArgs cmd' value :
  AttachStringArg cmd parmType variableName otherArgs = Returns (cmd', value)
  <-> exists arg rawHelp,
        parseArg parmType variableName = Returns (arg, rawHelp)
        /\ value = stringDefault arg otherArgs
        /\ free cmd arg
        /\ cmd' = (cmd ++ [flagOf arg (cobra.StringValue value) rawHelp])%list.
Proof.
  split.
  - intros H.
    destruct (parseArg parmType variableName) as [[arg rawHelp]|p] eqn:Hparse.
    2: { unfold AttachStringArg in H. rewrite Hparse in H. discriminate. }
    rewrite (AttachStringArg_parsed _ _ _ _ _ _ Hparse) in H.
    destruct (bind (registerFlag _ _ _ _ _) _) as [cmd2|] eqn:Hend; [|discriminate].
    injection H as <- <-. apply register_and_mark_returns in Hend as [Hfree ->].
    exists arg, rawHelp. auto.
  - intros (arg & rawHelp & Hparse & -> & Hfree & ->).
    rewrite (AttachStringArg_parsed _ _ _ _ _ _ Hparse).
    now rewrite (proj2 (register_and_mark_returns _ _ _ _ _) (conj Hfree eq_refl)).
Qed.

Lemma AttachBoolArg_returns cmd parmType variableName cmd' value :
  AttachBoolArg cmd parmType variableName = Returns (cmd', value)
  <-> exists arg rawHelp,
        parseArg parmType variableName = Returns (arg, rawHelp)
        /\ HasDefaultValue arg = true
        /\ strconv.ParseBool (DefaultValue arg) = (value, None)
        /\ free cmd arg
        /\ cmd' = (cmd ++ [flagOf arg (cobra.BoolValue value) rawHelp])%list.
Proof.
  split.
  - intros H.
    destruct (parseArg parmType variableName) as [[arg rawHelp]|p] eqn:Hparse.
    2: { unfold AttachBoolArg in H. rewrite Hparse in H. discriminate. }
    destruct (AttachBoolArg_stopped cmd _ _ _ _ Hparse)
      as [[_ Hp]|[(_ & _ & Hp)|(Hhas & b & Hconv)]];
      try (rewrite Hp in H; discriminate).
    rewrite (AttachBoolArg_parsed _ _ _ _ _ _ Hparse Hhas Hconv) in H.
    destruct (bind (registerFlag _ _ _ _ _) _) as [cmd2|] eqn:Hend; [|discriminate].
    injection H as <- <-. apply register_and_mark_returns in Hend as [Hfree ->].
    exists arg, rawHelp. auto.
  - intros (arg & rawHelp & Hparse & Hhas & Hconv & Hfree & ->).
    rewrite (AttachBoolArg_parsed _ _ _ _ _ _ Hparse Hhas Hconv).
    now rewrite (proj2 (register_and_mark_returns _ _ _ _ _) (conj Hfree eq_refl)).
Qed.

Lemma AttachIntArg_returns cmd parmType variableName cmd' value :
  AttachIntArg cmd parmType variableName = Returns (cmd', value)
  <-> exists arg rawHelp,
        parseArg parmType variableName = Returns (arg, rawHelp)
        /\ HasDefaultValue arg = true
        /\ strconv.Atoi (DefaultValue arg) = (value, None)
        /\ free cmd arg
        /\ cmd' = (cmd ++ [flagOf arg (cobra.IntValue value) rawHelp])%list.
Proof.
  split.
  - intros H.
    destruct (parseArg parmType variableName) as [[arg rawHelp]|p] eqn:Hparse.
    2: { unfold AttachIntArg in H. rewrite Hparse in H. discriminate. }
    destruct (AttachIntArg_stopped cmd _ _ _ _ Hparse)
      as [[_ Hp]|[(_ & _ & Hp)|(Hhas & n & Hconv)]];
      try (rewrite Hp in H; discriminate).
    rewrite (AttachIntArg_parsed _ _ _ _ _ _ Hparse Hhas Hconv) in H.
    destruct (bind (registerFlag _ _ _ _ _) _) as [cmd2|] eqn:Hend; [|discriminate].
    injection H as <- <-. apply register_and_mark_returns in Hend as [Hfree ->].
    exists arg, rawHelp. auto.
  - intros (arg & rawHelp & Hparse & Hhas & Hconv & Hfree & ->).
    rewrite (AttachIntArg_parsed _ _ _ _ _ _ Hparse Hhas Hconv).
    now rewrite (proj2 (register_and_mark_returns _ _ _ _ _) (conj Hfree eq_refl)).
Qed.

Lemma attach_returns cmd parmType c cmd' :
  attach cmd parmType c = Returns cmd'
  <-> exists arg value rawHelp,
        binds parmType c arg value rawHelp
        /\ free cmd arg
        /\ cmd' = (cmd ++ [flagOf arg value rawHelp])%list.
Proof.
  destruct c as [variableName otherArgs|variableName|variableName];
    cbn [attach binds]; split.
  - destruct (AttachStringArg _ _ _ _) as [[cmd1 v]|] eqn:H; [|discriminate].
    intros [= <-].
    apply AttachStringArg_returns in H as (arg & rawHelp & ? & -> & ? & ->).
    exists arg, (cobra.StringValue (stringDefault arg otherArgs)), rawHelp. auto.
  - intros (arg & value & rawHelp & [Hparse ->] & Hfree & ->).
    assert (H : AttachStringArg cmd parmType variableName otherArgs
                = Returns ((cmd ++ [flagOf arg (cobra.StringValue
                                      (stringDefault arg otherArgs)) rawHelp])%list,
                           stringDefault arg otherArgs)).
    { apply AttachStringArg_returns. exists arg, rawHelp. auto. }
    now rewrite H.
  - destruct (AttachBoolArg _ _ _) as [[cmd1 v]|] eqn:H; [|discriminate].
    intros [= <-].
    apply AttachBoolArg_returns in H as (arg & rawHelp & ? & ? & ? & ? & ->).
    exists arg, (cobra.BoolValue v), rawHelp. eauto 8.
  - intros (arg & value & rawHelp & (Hparse & Hhas & b & Hconv & ->) & Hfree & ->).
    assert (H : AttachBoolArg cmd parmType variableName
                = Returns ((cmd ++ [flagOf arg (cobra.BoolValue b) rawHelp])%list, b)).
    { apply AttachBoolArg_returns. exists arg, rawHelp. auto. }
    now rewrite H.
  - destruct (AttachIntArg _ _ _) as [[cmd1 v]|] eqn:H; [|discriminate].
    intros [= <-].
    apply AttachIntArg_returns in H as (arg & rawHelp & ? & ? & ? & ? & ->).
    exists arg, (cobra.IntValue v), rawHelp. eauto 8.
  - intros (arg & value & rawHelp & (Hparse & Hhas & n & Hconv & ->) & Hfree & ->).
    assert (H : AttachIntArg cmd parmType variableName
                = Returns ((cmd ++ [flagOf arg (cobra.IntValue n) rawHelp])%list, n)).
    { apply AttachIntArg_returns. exists arg, rawHelp. auto. }
    now rewrite H.
Qed.

(** What a call makes of the struct type is one thing: the parsed
    [Argument], the default and the help are determined. *)
Lemma binds_unique parmType c arg1 value1 rawHelp1 arg2 value2 rawHelp2 :
  binds parmType c arg1 value1 rawHelp1 ->
  binds parmType c arg2 value2 rawHelp2 ->
  arg1 = arg2 /\ value1 = value2 /\ rawHelp1 = rawHelp2.
Proof.
  destruct c as [variableName otherArgs|variableName|variableName]; cbn [binds].
  - intros [H1 ->] [H2 ->]. rewrite H1 in H2. injection H2 as <- <-. auto.
  - intros (H1 & _ & b1 & Hb1 & ->) (H2 & _ & b2 & Hb2 & ->).
    rewrite H1 in H2. injection H2 as <- <-. rewrite Hb1 in Hb2.
    injection Hb2 as <-. auto.
  - intros (H1 & _ & n1 & Hn1 & ->) (H2 & _ & n2 & Hn2 & ->).
    rewrite H1 in H2. injection H2 as <- <-. rewrite Hn1 in Hn2.
    injection Hn2 as <-. auto.
Qed.

Lemma free_app cmd flag arg :
  free (cmd ++ [flag])%list arg
  <-> free cmd arg
      /\ cobra.Name flag <> LongName arg
      /\ (ShortName arg = EmptyString \/ cobra.Shorthand flag <> ShortName arg).
Proof.
  unfold free. rewrite Lookup_app, lookupShorthand_app.
  destruct (cobra.Lookup cmd (LongName arg)) as [taken|].
  { split; [intros [[=] _] | intros [[[=] _] _]]. }
  destruct (String.eqb_spec (cobra.Name flag) (LongName arg)) as [Hsame|Hdiff].
  { split; [intros [[=] _] | intros (_ & H & _); contradiction]. }
  destruct (cobra.lookupShorthand cmd (ShortName arg)) as [used|].
  { split.
    - intros [_ [H|[_ [=]]]]. auto.
    - intros ([_ [H|[_ [=]]]] & _ & _). auto. }
  destruct (String.eqb_spec (cobra.Shorthand flag) (ShortName arg)) as [Hs|Hs].
  - split.
    + intros [_ [H|[_ [=]]]]. auto.
    + intros ([_ H] & _ & [H'|H']); [auto | contradiction].
  - split.
    + intros [_ [H|[Hlen _]]]; auto 6.
    + intros ([_ H] & _ & _). auto.
Qed.

(** X8: each binder returns exactly when the field exists and its tag
    parses, the default converts (for [AttachBoolArg] and
    [AttachIntArg], which need one in the tag), and the command has room
    for the flag.  It then leaves the default in the variable, and the
    command with one flag more, behind the others, which stay as they
    are: under the long and the short name of the [Argument], with the
    default, the help text behind its prefix, and required when the
    [Argument] is. *)
Theorem binders_return_iff cmd parmType variableName :
  (forall otherArgs cmd' value,
     AttachStringArg cmd parmType variableName otherArgs = Returns (cmd', value)
     <-> exists arg rawHelp,
           parseArg parmType variableName = Returns (arg, rawHelp)
           /\ value = stringDefault arg otherArgs
           /\ free cmd arg
           /\ cmd' = (cmd ++ [flagOf arg (cobra.StringValue value) rawHelp])%list)
  /\ (forall cmd' value,
       AttachBoolArg cmd parmType variableName = Returns (cmd', value)
       <-> exists arg rawHelp,
             parseArg parmType variableName = Returns (arg, rawHelp)
             /\ HasDefaultValue arg = true
             /\ strconv.ParseBool (DefaultValue arg) = (value, None)
             /\ free cmd arg
             /\ cmd' = (cmd ++ [flagOf arg (cobra.BoolValue value) rawHelp])%list)
  /\ (forall cmd' value,
       AttachIntArg cmd parmType variableName = Returns (cmd', value)
       <-> exists arg rawHelp,
             parseArg parmType variableName = Returns (arg, rawHelp)
             /\ HasDefaultValue arg = true
             /\ strconv.Atoi (DefaultValue arg) = (value, None)
             /\ free cmd arg
             /\ cmd' = (cmd ++ [flagOf arg (cobra.IntValue value) rawHelp])%list).
Proof.
  split; [|split]; intros.
  - apply AttachStringArg_returns.
  - apply AttachBoolArg_returns.
  - apply AttachIntArg_returns.
Qed.

(** X9: the panics of the binders.  [AttachStringArg] panics for a
    missing field, a tag that does not parse, or in the flag set;
    [AttachBoolArg] and [AttachIntArg] besides for a default value that
    does not convert and, the interface being [nil], in the type
    assertion.  No binder panics for a flag it cannot mark required,
    and no type assertion meets a value of the wrong type. *)
Theorem binder_panic_kinds cmd parmType variableName otherArgs p :
  (AttachStringArg cmd parmType variableName otherArgs = Panics p ->
   p = NoSuchVariable variableName
   \/ (exists field, p = BadField field)
   \/ (exists q, p = FlagSetPanic q))
  /\ (AttachBoolArg cmd parmType variableName = Panics p ->
      p = NoSuchVariable variableName
      \/ (exists field, p = BadField field)
      \/ (exists defaultValue,
            p = BadDefaultValue (reflect.TypeName parmType) variableName defaultValue)
      \/ p = InterfaceConversion Nil "bool"
      \/ (exists q, p = FlagSetPanic q))
  /\ (AttachIntArg cmd parmType variableName = Panics p ->
      p = NoSuchVariable variableName
      \/ (exists field, p = BadField field)
      \/ (exists defaultValue,
            p = BadDefaultValue (reflect.TypeName parmType) variableName defaultValue)
      \/ p = InterfaceConversion Nil "int"
      \/ (exists q, p = FlagSetPanic q)).
Proof.
  destruct (parseArg parmType variableName) as [[arg rawHelp]|p0] eqn:Hparse.
  2: { unfold AttachStringArg, AttachBoolArg, AttachIntArg. rewrite Hparse.
       cbn [bind]. apply parseArg_panics in Hparse.
       repeat split; intros [= <-]; destruct Hparse as [->|[field ->]]; eauto. }
  split; [|split]; intros H.
  - rewrite (AttachStringArg_parsed _ _ _ _ _ _ Hparse) in H.
    destruct (register_and_mark cmd arg
                (cobra.StringValue (stringDefault arg otherArgs)) rawHelp)
      as [[_ Hr]|[_ (q & Hr & _)]]; rewrite Hr in H; [discriminate|].
    injection H as <-. eauto.
  - destruct (AttachBoolArg_stopped cmd _ _ _ _ Hparse)
      as [[_ Hp]|[(_ & _ & Hp)|(Hhas & b & Hconv)]].
    + rewrite Hp in H. injection H as <-. auto 6.
    + rewrite Hp in H. injection H as <-. eauto 6.
    + rewrite (AttachBoolArg_parsed _ _ _ _ _ _ Hparse Hhas Hconv) in H.
      destruct (register_and_mark cmd arg (cobra.BoolValue b) rawHelp)
        as [[_ Hr]|[_ (q & Hr & _)]]; rewrite Hr in H; [discriminate|].
      injection H as <-. eauto 8.
  - destruct (AttachIntArg_stopped cmd _ _ _ _ Hparse)
      as [[_ Hp]|[(_ & _ & Hp)|(Hhas & n & Hconv)]].
    + rewrite Hp in H. injection H as <-. auto 6.
    + rewrite Hp in H. injection H as <-. eauto 6.
    + rewrite (AttachIntArg_parsed _ _ _ _ _ _ Hparse Hhas Hconv) in H.
      destruct (register_and_mark cmd arg (cobra.IntValue n) rawHelp)
        as [[_ Hr]|[_ (q & Hr & _)]]; rewrite Hr in H; [discriminate|].
      injection H as <-. eauto 8.
Qed.

(** ** Binders one after the other *)

(** X10: a flag that a binder has registered can be looked up under the
    long name of its [Argument], no flag was registered under that name
    before, and every other name leads to the flag it led to before. *)
Theorem bound_flag_lookup cmd parmType c cmd' :
  attach cmd parmType c = Returns cmd' ->
  exists arg value rawHelp,
    binds parmType c arg value rawHelp
    /\ cobra.Lookup cmd (LongName arg) = None
    /\ cobra.Lookup cmd' (LongName arg) = Some (flagOf arg value rawHelp)
    /\ (forall name, name <> LongName arg ->
                     cobra.Lookup cmd' name = cobra.Lookup cmd name)
    /\ List.length cmd' = S (List.length cmd).
Proof.
  intros H. apply attach_returns in H as (arg & value & rawHelp & Hb & Hfree & ->).
  exists arg, value, rawHelp. destruct Hfree as [Hnone _].
  split; [exact Hb|]. split; [exact Hnone|]. split; [|split].
  - rewrite Lookup_app, Hnone. cbn [flagOf cobra.Name]. now rewrite String.eqb_refl.
  - intros name Hname. rewrite Lookup_app.
    destruct (cobra.Lookup cmd name); [reflexivity|].
    cbn [flagOf cobra.Name].
    destruct (String.eqb_spec (LongName arg) name); [congruence | reflexivity].
  - rewrite length_app. cbn [List.length]. lia.
Qed.

(** X11: a call that has returned cannot be repeated: made again on
    the command it left, it panics in the flag set, which refuses the
    long name as taken. *)
Theorem binding_twice cmd parmType c cmd' :
  attach cmd parmType c = Returns cmd' ->
  exists arg value rawHelp,
    binds parmType c arg value rawHelp
    /\ attach cmd' parmType c
       = Panics (FlagSetPanic (cobra.FlagRedefined (LongName arg))).
Proof.
  intros H. apply attach_returns in H as (arg & value & rawHelp & Hb & Hfree & ->).
  exists arg, value, rawHelp. split; [exact Hb|].
  assert (Htaken : cobra.Lookup (cmd ++ [flagOf arg value rawHelp])%list (LongName arg)
                   <> None).
  { rewrite Lookup_app. destruct Hfree as [-> _]. cbn [flagOf cobra.Name].
    rewrite String.eqb_refl. discriminate. }
  assert (Hend : forall v,
            (cmd1 <- registerFlag (cmd ++ [flagOf arg value rawHelp])%list v
                       (LongName arg) (ShortName arg) (rationalizeHelp arg rawHelp) ;;
             processRequiredArg cmd1 arg)
            = Panics (FlagSetPanic (cobra.FlagRedefined (LongName arg)))).
  { intros v.
    destruct (register_and_mark (cmd ++ [flagOf arg value rawHelp])%list arg v rawHelp)
      as [[[Hnone _] _]|[_ (q & Hr & Hq)]]; [contradiction|].
    now rewrite Hr, (Hq Htaken). }
  destruct c as [variableName otherArgs|variableName|variableName];
    cbn [attach binds] in *.
  - destruct Hb as [Hparse _].
    now rewrite (AttachStringArg_parsed _ _ _ _ _ _ Hparse), Hend.
  - destruct Hb as (Hparse & Hhas & b & Hconv & _).
    now rewrite (AttachBoolArg_parsed _ _ _ _ _ _ Hparse Hhas Hconv), Hend.
  - destruct Hb as (Hparse & Hhas & n & Hconv & _).
    now rewrite (AttachIntArg_parsed _ _ _ _ _ _ Hparse Hhas Hconv), Hend.
Qed.

(** X12: the order of two calls does not matter.  When one call and
    then another return, so do they in the other order, and the two
    commands hold the same flags, the last two in the other order. *)
Theorem binding_order cmd parmType c1 c2 cmd1 cmd2 :
  attach cmd parmType c1 = Returns cmd1 ->
  attach cmd1 parmType c2 = Returns cmd2 ->
  exists cmd1' cmd2',
    attach cmd parmType c2 = Returns cmd1'
    /\ attach cmd1' parmType c1 = Returns cmd2'
    /\ Permutation cmd2 cmd2'.
Proof.
  intros H1 H2.
  apply attach_returns in H1 as (arg1 & value1 & help1 & Hb1 & Hfree1 & ->).
  apply attach_returns in H2 as (arg2 & value2 & help2 & Hb2 & Hfree2 & ->).
  apply free_app in Hfree2 as (Hfree2 & Hlong & Hshort).
  cbn [flagOf cobra.Name cobra.Shorthand] in Hlong, Hshort.
  exists (cmd ++ [flagOf arg2 value2 help2])%list,
         ((cmd ++ [flagOf arg2 value2 help2]) ++ [flagOf arg1 value1 help1])%list.
  split; [|split].
  - apply attach_returns. exists arg2, value2, help2. auto.
  - apply attach_returns. exists arg1, value1, help1.
    split; [exact Hb1|]. split; [|reflexivity].
    apply free_app. cbn [flagOf cobra.Name cobra.Shorthand].
    split; [exact Hfree1|]. split; [congruence|].
    destruct Hshort as [Hempty|Hdiff]; [|right; congruence].
    destruct (String.eqb_spec (ShortName arg1) EmptyString) as [H|H]; [now left|].
    right. congruence.
  - rewrite <- !app_assoc. apply Permutation_app_head. cbn [List.app].
    apply perm_swap.
Qed.

(** X14: without an override [AttachStringArg] registers the
    [DefaultValue] of the parsed [Argument], which is empty when the tag
    has no default: the test of [HasDefaultValue] never changes the
    outcome. *)
Theorem string_default_without_override parmType variableName arg rawHelp :
  parseArg parmType variableName = Returns (arg, rawHelp) ->
  stringDefault arg [] = DefaultValue arg
  /\ forall cmd cmd' value,
       AttachStringArg cmd parmType variableName [] = Returns (cmd', value) ->
       value = DefaultValue arg
       /\ cobra.Lookup cmd' (LongName arg)
          = Some (flagOf arg (cobra.StringValue (DefaultValue arg)) rawHelp).
Proof.
  intros Hparse.
  assert (Hdefault : stringDefault arg [] = DefaultValue arg).
  { unfold stringDefault. destruct (HasDefaultValue arg) eqn:Hhas; [reflexivity|].
    apply parseArg_returns in Hparse as (field & _ & Hp & _).
    pose proof (returned_argument_default field) as Hinv.
    rewrite Hp in Hinv. cbn [fst] in Hinv. symmetry. now apply Hinv. }
  split; [exact Hdefault|].
  intros cmd cmd' value H.
  apply AttachStringArg_returns in H as (arg' & rawHelp' & Hparse' & -> & Hfree & ->).
  rewrite Hparse in Hparse'. injection Hparse' as <- <-.
  rewrite Hdefault. split; [reflexivity|].
  rewrite Lookup_app. destruct Hfree as [-> _]. cbn [flagOf cobra.Name].
  now rewrite String.eqb_refl.
Qed.

End Package.

(** * Evaluations

    The statements above hold for every case table; the evaluations
    below take [noCaseRanges]. *)

Lemma field_name_length_check_witness :
  ParseArgFromField noCaseRanges (untagged "U")
  = (zeroArgument, Some (FieldNameTooShort "U"))
  /\ forall fieldName,
       snd (ParseArgFromField noCaseRanges (tagged "Up" "bad"))
       <> Some (FieldNameTooShort fieldName).
Proof.
  split.
  - apply (proj1 (field_name_length_check noCaseRanges (untagged "U"))).
    simpl. lia.
  - apply (proj2 (field_name_length_check noCaseRanges (tagged "Up" "bad"))).
    simpl. lia.
Defined.

Lemma C4_witness :
  snd (ParseArgFromField noCaseRanges (untagged "Port"))
  = Some (MalformedTagItem 0 "Port")
  /\ snd (ParseArgFromField noCaseRanges (tagged "Port" ""))
     = Some (MalformedTagItem 0 "Port")
  /\ snd (ParseArgFromField noCaseRanges (untagged "P"))
     = Some (FieldNameTooShort "P").
Proof.
  split; [|split].
  3: { apply (proj1 (proj2 (C4_empty_arg_tag noCaseRanges (untagged "P")
                              (or_introl eq_refl)))).
       simpl. lia. }
  - apply (proj1 (C4_empty_arg_tag noCaseRanges (untagged "Port")
                    (or_intror (fun value H => H)))).
    simpl. lia.
  - apply (proj1 (C4_empty_arg_tag noCaseRanges (tagged "Port" "")
                    (or_introl eq_refl))).
    simpl. lia.
Defined.

(** The claim C4 at the field [P] without a tag: the error is that of
    the name, not that of the item at index 0. *)
Lemma C4_counterexample :
  reflect.Get (reflect.Tag (untagged "P")) "arg" = EmptyString
  /\ snd (ParseArgFromField noCaseRanges (untagged "P"))
     = Some (FieldNameTooShort "P")
  /\ snd (ParseArgFromField noCaseRanges (untagged "P"))
     <> Some (MalformedTagItem 0 "P").
Proof. repeat split. discriminate. Qed.

Lemma accepted_required_true :
  accepted noCaseRanges "required=true".
Proof.
  exists "required", "true". split; [reflexivity|]. split.
  - intros _. reflexivity.
  - discriminate.
Defined.

Lemma C2_witness :
  ParseArgFromField noCaseRanges (tagged "Port" "required=true,bad,longname=x")
  = (withRequired (withLongName zeroArgument "port") true,
     Some (MalformedTagItem 1 "Port")).
Proof.
  apply (C2_malformed_tag_item noCaseRanges
           (tagged "Port" "required=true,bad,longname=x")
           ["required=true"] "bad" ["longname=x"]).
  - simpl. lia.
  - reflexivity.
  - constructor; [exact accepted_required_true | constructor].
  - simpl. lia.
Defined.

(** The claim C2 at the tag [required=x,bad]: the first item that does
    not split in two is at index 1, and the error is that of the item
    at index 0, which is no boolean. *)
Lemma C2_counterexample :
  argItemsOf (tagged "Port" "required=x,bad") = ["required=x"; "bad"]
  /\ strings.Split "required=x" "=" = ["required"; "x"]
  /\ strings.Split "bad" "=" = ["bad"]
  /\ snd (ParseArgFromField noCaseRanges (tagged "Port" "required=x,bad"))
     = Some (InvalidBooleanValue "Port" "required" "x")
  /\ snd (ParseArgFromField noCaseRanges (tagged "Port" "required=x,bad"))
     <> Some (MalformedTagItem 1 "Port").
Proof. repeat split. discriminate. Qed.

Lemma C10_witness :
  LongName (fst (ParseArgFromField noCaseRanges (tagged "UserName" "longname=")))
  <> EmptyString.
Proof.
  apply (C10_long_name_not_empty noCaseRanges (tagged "UserName" "longname=")
           (withLongName zeroArgument "userName")).
  reflexivity.
Defined.

Lemma C7_witness :
  (HasDefaultValue (withDefaultValue (withLongName zeroArgument "port") "8080") = true
   <-> exists argItem name tagValue,
         In argItem (argItemsOf (tagged "Port" "DefaultValue=8080"))
         /\ strings.Split argItem "=" = [name; tagValue]
         /\ strings.ToLower noCaseRanges name = "defaultvalue")
  /\ ParseArgFromField noCaseRanges (tagged "Port" "defaultvalue=")
     = (withDefaultValue (withLongName zeroArgument "port") "", None).
Proof.
  split.
  - apply (proj1 (C7_has_default_value noCaseRanges
                    (tagged "Port" "DefaultValue=8080"))
             (withDefaultValue (withLongName zeroArgument "port") "8080")).
    reflexivity.
  - apply (proj2 (C7_has_default_value noCaseRanges
                    (tagged "Port" "defaultvalue="))).
    + simpl. lia.
    + reflexivity.
Defined.

Lemma C8_witness :
  ParseArgFromField noCaseRanges (tagged "Port" "longname=foo,longname=bar")
  = (withLongName zeroArgument "bar", None)
  /\ Required (withRequired (withLongName zeroArgument "port") false) = false.
Proof.
  split.
  - apply (proj2 (proj2 (C8_items_in_order noCaseRanges
                           (tagged "Port" "longname=foo,longname=bar")))).
    + simpl. lia.
    + reflexivity.
  - apply (proj1 (proj1 (proj2 (C8_items_in_order noCaseRanges
                                  (tagged "Port" "required=true,required=false")))
                    (withRequired (withLongName zeroArgument "port") false)
                    eq_refl)).
Defined.

(** The claim C8 at the tag [longname=foo,longname=]: the last item
    under the key has the empty value, and the [LongName] is that of the
    first; the field tagged [longname=] alone gets the derived name. *)
Lemma C8_counterexample :
  ParseArgFromField noCaseRanges (tagged "Port" "longname=foo,longname=")
  = (withLongName zeroArgument "foo", None)
  /\ lastValue "longname"
       (tagPairs noCaseRanges (argItemsOf (tagged "Port" "longname=foo,longname=")))
     = Some EmptyString
  /\ ParseArgFromField noCaseRanges (tagged "Port" "longname=")
     = (withLongName zeroArgument "port", None).
Proof. repeat split. Qed.

Lemma short_name_in_bytes_witness :
  ParseArgFromField noCaseRanges (tagged "Port" "required=true,shortname=ab")
  = (withRequired (withLongName zeroArgument "port") true,
     Some (ShortNameTooLong "Port" "shortname" "ab"))
  /\ ParseArgFromField noCaseRanges (tagged "Port" "required=true,ShortName=P")
     = (withShortName (withRequired (withLongName zeroArgument "port") true) "p",
        None).
Proof.
  split.
  - apply (proj1 (proj1 (short_name_in_bytes noCaseRanges
                           (tagged "Port" "required=true,shortname=ab"))
                    ["required=true"] "shortname=ab" [] "ab"
                    ltac:(simpl; lia) eq_refl
                    (Forall_cons _ accepted_required_true (Forall_nil _))
                    eq_refl)).
    simpl. lia.
  - apply (proj2 (proj1 (short_name_in_bytes noCaseRanges
                           (tagged "Port" "required=true,ShortName=P"))
                    ["required=true"] "ShortName=P" [] "P"
                    ltac:(simpl; lia) eq_refl
                    (Forall_cons _ accepted_required_true (Forall_nil _))
                    eq_refl)).
    simpl. lia.
Defined.


Lemma C1_witness :
  ParseArgFromField noCaseRanges fieldEa
  = (withRequired
       (withLongName zeroArgument
          (String "239" (String "191" (String "189" (String "137" "a")))))
       true, None)
  /\ LongName (fst (ParseArgFromField noCaseRanges fieldEa))
     = String "239" (String "191" (String "189" (String "137" "a"))).
Proof.
  split.
  - exact (proj1 (C1_name_with_wide_initial noCaseRanges)).
  - apply (proj1 (proj2 (C1_name_with_wide_initial noCaseRanges))).
    reflexivity.
Defined.

Lemma long_name_of_ASCII_initial_witness :
  LongName (withRequired (withShortName (withLongName zeroArgument "userName") "u") true)
  = "userName".
Proof.
  apply (long_name_of_ASCII_initial noCaseRanges
           (tagged "UserName" "shortname=u,required=true") "U" "serName").
  - reflexivity.
  - reflexivity.
  - reflexivity.
Defined.

Lemma C3_witness :
  AttachBoolArg noCaseRanges [] config "Quiet"
  = Panics (InterfaceConversion Nil "bool")
  /\ AttachIntArg noCaseRanges [] config "Quiet"
     = Panics (InterfaceConversion Nil "int")
  /\ exists field argItem name tagValue,
       reflect.FieldByName config "Port" = Some field
       /\ In argItem (argItemsOf field)
       /\ strings.Split argItem "=" = [name; tagValue]
       /\ strings.ToLower noCaseRanges name = "defaultvalue"
       /\ strconv.Atoi tagValue = (8080%Z, None).
Proof.
  split; [|split].
  - apply (proj1 (C3_binder_needs_default noCaseRanges [] config "Quiet")
             (withShortName (withLongName zeroArgument "quiet") "q") "");
      reflexivity.
  - apply (proj1 (C3_binder_needs_default noCaseRanges [] config "Quiet")
             (withShortName (withLongName zeroArgument "quiet") "q") "");
      reflexivity.
  - apply (proj2 (proj2 (C3_binder_needs_default noCaseRanges [] config "Port"))
             ([{| cobra.Name := "port"; cobra.Shorthand := "";
                  cobra.Usage := "optional: ";
                  cobra.DefValue := cobra.IntValue 8080;
                  cobra.Required := false |}], 8080%Z)).
    reflexivity.
Defined.


Lemma required_item_witness :
  ParseArgFromField noCaseRanges (tagged "Port" "required=true")
  = (withRequired (withLongName zeroArgument "port") true, None)
  /\ ParseArgFromField noCaseRanges (tagged "Port" "required=notabool")
     = (withLongName zeroArgument "port",
        Some (InvalidBooleanValue "Port" "required" "notabool")).
Proof.
  split.
  - apply (proj1 (required_item noCaseRanges (tagged "Port" "required=true")
                    ltac:(simpl; lia))).
    reflexivity.
  - apply (proj2 (required_item noCaseRanges (tagged "Port" "required=notabool")
                    ltac:(simpl; lia))).
    reflexivity.
Defined.

Lemma unrecognized_key_ignored_witness :
  processArg noCaseRanges zeroArgument "Port" "colour" "red" = (zeroArgument, None).
Proof.
  apply (unrecognized_key_ignored noCaseRanges zeroArgument "Port" "colour" "red");
    discriminate.
Defined.

Lemma parser_error_kinds_witness :
  MalformedTagItem 1 "Port" = FieldNameTooShort "Port"
  \/ (exists index,
        index < List.length (argItemsOf (tagged "Port" "longname=p,bad"))
        /\ MalformedTagItem 1 "Port" = MalformedTagItem index "Port")
  \/ (exists tagValue,
        MalformedTagItem 1 "Port" = InvalidBooleanValue "Port" "required" tagValue)
  \/ (exists tagValue,
        MalformedTagItem 1 "Port" = ShortNameTooLong "Port" "shortname" tagValue).
Proof.
  apply (parser_error_kinds noCaseRanges (tagged "Port" "longname=p,bad")
           (withLongName zeroArgument "p")).
  reflexivity.
Defined.

Lemma binder_panics_witness :
  AttachStringArg noCaseRanges [] config "Colour" ["red"]
  = Panics (NoSuchVariable "Colour")
  /\ AttachIntArg noCaseRanges [] config "Verbose"
     = Panics (BadDefaultValue "Config" "Verbose" "true").
Proof.
  split.
  - apply (proj1 (binder_panics noCaseRanges [] config "Colour" ["red"])).
    reflexivity.
  - apply (proj2 (proj2 (binder_panics noCaseRanges [] config "Verbose" []))
             (withDefaultValue (withLongName zeroArgument "verbose") "true") "").
    + reflexivity.
    + reflexivity.
    + discriminate.
Defined.

Lemma shortname_item_witness :
  ParseArgFromField noCaseRanges (tagged "Port" "shortname=ab")
  = (withLongName zeroArgument "port",
     Some (ShortNameTooLong "Port" "shortname" "ab"))
  /\ ParseArgFromField noCaseRanges (tagged "Port" "shortname=A")
     = (withShortName (withLongName zeroArgument "port") "a", None).
Proof.
  split.
  - apply (proj1 (shortname_item noCaseRanges (tagged "Port" "shortname=ab")
                    ltac:(simpl; lia))).
    reflexivity.
  - apply (proj1 (proj2 (shortname_item noCaseRanges (tagged "Port" "shortname=A")
                           ltac:(simpl; lia)))).
    reflexivity.
Defined.

Lemma rejected_shortname_ab : ~ accepted noCaseRanges "shortname=ab".
Proof.
  intros (name & tagValue & Hnv & _ & Hshort).
  injection Hnv as <- <-. specialize (Hshort eq_refl). simpl in Hshort. lia.
Defined.

Lemma first_rejected_item_witness :
  ParseArgFromField noCaseRanges (tagged "Port" "required=true,shortname=ab,bad")
  = (withRequired (withLongName zeroArgument "port") true,
     Some (ShortNameTooLong "Port" "shortname" "ab")).
Proof.
  apply (first_rejected_item noCaseRanges
           (tagged "Port" "required=true,shortname=ab,bad")
           ["required=true"] "shortname=ab" ["bad"]).
  - simpl. lia.
  - reflexivity.
  - constructor; [exact accepted_required_true | constructor].
  - exact rejected_shortname_ab.
Defined.

Lemma required_literals_witness :
  (In "T" trueLiterals /\ Required (withRequired (withLongName zeroArgument "port") true) = true)
  \/ (In "T" falseLiterals
      /\ Required (withRequired (withLongName zeroArgument "port") true) = false).
Proof.
  apply (required_literals noCaseRanges (tagged "Port" "required=0,Required=T")
           (withRequired (withLongName zeroArgument "port") true)).
  reflexivity.
Defined.

Lemma keys_in_any_case_witness :
  ParseArgFromField noCaseRanges (tagged "Port" "LongName=Pt,SHORTNAME=P,bad")
  = ParseArgFromField noCaseRanges (tagged "Port" "longname=Pt,shortname=P,a=b=c").
Proof.
  apply (keys_in_any_case noCaseRanges
           (tagged "Port" "LongName=Pt,SHORTNAME=P,bad")
           (tagged "Port" "longname=Pt,shortname=P,a=b=c")).
  - reflexivity.
  - reflexivity.
Defined.

Lemma unrecognized_item_ignored_witness :
  fst (ParseArgFromField noCaseRanges (tagged "Port" "longname=pt,colour=red,required=1"))
  = fst (ParseArgFromField noCaseRanges (tagged "Port" "longname=pt,required=1")).
Proof.
  apply (unrecognized_item_ignored noCaseRanges
           (tagged "Port" "longname=pt,colour=red,required=1")
           (tagged "Port" "longname=pt,required=1")
           ["longname=pt"] "colour=red" ["required=1"] "colour" "red").
  - reflexivity.
  - reflexivity.
  - reflexivity.
  - reflexivity.
  - intros [H|[H|[H|H]]]; discriminate H.
Defined.

Lemma error_names_field_witness :
  exists before after,
    Error (MalformedTagItem 1 "Port") = before ++ "Port" ++ after.
Proof.
  apply (error_names_field noCaseRanges (tagged "Port" "longname=p,bad")
           (withLongName zeroArgument "p") (MalformedTagItem 1 "Port")).
  reflexivity.
Defined.

Lemma returned_argument_witness :
  DefaultValue (fst (ParseArgFromField noCaseRanges (tagged "Port" "shortname=P,bad")))
  = EmptyString
  /\ LongName (fst (ParseArgFromField noCaseRanges (tagged "Port" "shortname=P,bad")))
     <> EmptyString.
Proof.
  split.
  - apply (proj1 (returned_argument noCaseRanges (tagged "Port" "shortname=P,bad"))).
    reflexivity.
  - apply (proj2 (proj2 (returned_argument noCaseRanges
                           (tagged "Port" "shortname=P,bad")))).
    simpl. lia.
Defined.

Lemma binder_panic_kinds_witness :
  InterfaceConversion Nil "bool" = NoSuchVariable "Quiet"
  \/ (exists field, InterfaceConversion Nil "bool" = BadField field)
  \/ (exists defaultValue,
        InterfaceConversion Nil "bool"
        = BadDefaultValue (reflect.TypeName config) "Quiet" defaultValue)
  \/ InterfaceConversion Nil "bool" = InterfaceConversion Nil "bool"
  \/ (exists q, InterfaceConversion Nil "bool" = FlagSetPanic q).
Proof.
  apply (proj1 (proj2 (binder_panic_kinds noCaseRanges [] config "Quiet" []
                         (InterfaceConversion Nil "bool")))).
  reflexivity.
Defined.

Lemma bound_flag_lookup_witness :
  exists arg value rawHelp,
    binds noCaseRanges config (IntCall "Port") arg value rawHelp
    /\ cobra.Lookup [userNameFlag] (LongName arg) = None
    /\ cobra.Lookup [userNameFlag; portFlag] (LongName arg)
       = Some (flagOf arg value rawHelp)
    /\ (forall name, name <> LongName arg ->
                     cobra.Lookup [userNameFlag; portFlag] name
                     = cobra.Lookup [userNameFlag] name)
    /\ List.length [userNameFlag; portFlag] = S (List.length [userNameFlag]).
Proof.
  apply (bound_flag_lookup noCaseRanges [userNameFlag] config (IntCall "Port")
           [userNameFlag; portFlag]).
  reflexivity.
Defined.

Lemma binding_twice_witness :
  exists arg value rawHelp,
    binds noCaseRanges config (StringCall "UserName" []) arg value rawHelp
    /\ attach noCaseRanges [userNameFlag] config (StringCall "UserName" [])
       = Panics (FlagSetPanic (cobra.FlagRedefined (LongName arg))).
Proof.
  apply (binding_twice noCaseRanges [] config (StringCall "UserName" [])
           [userNameFlag]).
  reflexivity.
Defined.

Lemma binding_order_witness :
  exists cmd1' cmd2',
    attach noCaseRanges [] config (IntCall "Port") = Returns cmd1'
    /\ attach noCaseRanges cmd1' config (StringCall "UserName" []) = Returns cmd2'
    /\ Permutation [userNameFlag; portFlag] cmd2'.
Proof.
  apply (binding_order noCaseRanges [] config (StringCall "UserName" [])
           (IntCall "Port") [userNameFlag] [userNameFlag; portFlag]).
  - reflexivity.
  - reflexivity.
Defined.

Lemma string_default_without_override_witness :
  stringDefault (withShortName (withLongName zeroArgument "quiet") "q") []
  = EmptyString.
Proof.
  apply (proj1 (string_default_without_override noCaseRanges config "Quiet"
                  (withShortName (withLongName zeroArgument "quiet") "q") ""
                  eq_refl)).
Defined.

Lemma C5_witness :
  ParseArgFromField noCaseRanges fieldE
  = (withRequired
       (withLongName zeroArgument
          (String "239" (String "191" (String "189" (String "137" EmptyString)))))
       true, None)
  /\ LongName (fst (ParseArgFromField noCaseRanges fieldE))
     = String "239" (String "191" (String "189" (String "137" EmptyString))).
Proof.
  split.
  - exact (proj1 (proj2 (proj2 (C5_name_of_one_wide_character noCaseRanges)))).
  - apply (proj2 (proj2 (proj2 (proj2 (C5_name_of_one_wide_character noCaseRanges))))).
    reflexivity.
Defined.

